(** * Recipe indexing script: a shallow embedding of [index.ts]

    The script reads two secrets from the process environment, makes sure a
    Pinecone index exists, embeds and upserts every recipe, and finally runs
    one semantic query whose matches it prints.  All remote work is done by
    two SDK clients; they are modelled by the [Remote] interface below, and
    the script itself is embedded as a computation that threads the state of
    the remote services and records every call it makes. *)

From Stdlib Require Import PrimFloat Ascii String ZArith Lia.
From stdpp Require Import gmap list strings.

(** ** JavaScript strings

    A JavaScript string is a sequence of UTF-16 code units; [length] and
    [slice] count code units. *)

Abbreviation jsstring := (list N).

(** A string literal of the source whose characters are all ASCII. *)
Definition js (s : string) : jsstring :=
  (fun a => Ascii.N_of_ascii a) <$> String.list_ascii_of_string s.

(** [s.slice(start, stop)] for [0 <= start <= stop]. *)
Definition slice (s : jsstring) (start stop : nat) : jsstring :=
  take (stop - start) (drop start s).

(** [xs.join(sep)], which is what [Array.prototype.toString] calls with a comma. *)
Fixpoint join (sep : jsstring) (xs : list jsstring) : jsstring :=
  match xs with
  | [] => []
  | [x] => x
  | x :: rest => x ++ sep ++ join sep rest
  end.

(** [x + s] where [x] is a string or [undefined]. *)
Definition concat_undefined (x : option jsstring) (s : jsstring) : jsstring :=
  match x with
  | None => js "undefined" ++ s
  | Some t => t ++ s
  end.

(** ** Exceptions and results *)

Inductive Exn : Type :=
  | Error (message : jsstring)          (* [new Error(message)] *)
  | TypeError                           (* a property read on [undefined] *)
  | RemoteFailure (message : jsstring). (* a rejected promise of an SDK call *)

Inductive Outcome (A : Type) : Type :=
  | Ok (a : A)
  | Throw (e : Exn).
Arguments Ok {A} a.
Arguments Throw {A} e.

(** ** Data model *)

(** An element of [recipes.json]. *)
Record Recipe := {
  id : jsstring;
  title : jsstring;
  content : jsstring }.

(** [RecordMetadataValue] of the Pinecone SDK. *)
Inductive RecordMetadataValue : Type :=
  | MVString (s : jsstring)
  | MVBoolean (b : bool)
  | MVNumber (n : float)
  | MVArray (xs : list jsstring).

Abbreviation RecordMetadata := (gmap (list N) RecordMetadataValue).

Record PineconeRecord := {
  rec_id : jsstring;
  rec_values : list float;
  rec_metadata : option RecordMetadata }.

Record ScoredPineconeRecord := {
  match_id : jsstring;
  match_score : option float;
  match_metadata : option RecordMetadata }.

Record QueryResponse := { matches : list ScoredPineconeRecord }.

Record QueryOptions := {
  vector : list float;
  topK : Z;
  includeMetadata : bool }.

Record IndexModel := { name : jsstring }.

(** The result of [listIndexes]: its [indexes] field is optional. *)
Record IndexList := { indexes : option (list IndexModel) }.

Record ServerlessSpec := { cloud : jsstring; region : jsstring }.

Record CreateIndexOptions := {
  ci_name : jsstring;
  ci_dimension : Z;
  ci_metric : jsstring;
  ci_spec : ServerlessSpec }.

Record EmbeddingCreateParams := { model : jsstring; input : jsstring }.

Record Embedding := { embedding : list float }.

Record CreateEmbeddingResponse := { data : list Embedding }.

(** A handle returned by [pinecone.Index(name)]; building it is local. *)
Record Index := { index_name : jsstring }.

(** One row of what [semanticSearch] returns. *)
Record SearchResult := {
  sr_id : jsstring;
  sr_title : option RecordMetadataValue;
  sr_content : jsstring;
  sr_score : option float }.

Inductive ConsoleArg : Type :=
  | Plain (s : jsstring)
  | Blue (s : jsstring).  (* [chalk.blue(s)] *)

(** What the script does that can be observed from outside, in order. *)
Inductive Event : Type :=
  | EListIndexes
  | ECreateIndex (options : CreateIndexOptions)
  | EEmbeddingsCreate (params : EmbeddingCreateParams)
  | EUpsert (index : jsstring) (records : list PineconeRecord)
  | EQuery (index : jsstring) (options : QueryOptions)
  | EConsoleLog (args : list ConsoleArg)
  | EConsoleTable (rows : list SearchResult).

Definition is_network (e : Event) : bool :=
  match e with
  | EConsoleLog _ | EConsoleTable _ => false
  | _ => true
  end.

Definition is_listIndexes (e : Event) : bool :=
  match e with EListIndexes => true | _ => false end.

Definition is_createIndex (e : Event) : bool :=
  match e with ECreateIndex _ => true | _ => false end.

(** ** The two hosted services

    [W] is the state of the services.  Every operation takes the API key
    the client was built with, may change the state, and may fail. *)

Class Remote (W : Type) := {
  listIndexes : jsstring -> W -> Outcome IndexList * W;
  createIndex : jsstring -> CreateIndexOptions -> W -> Outcome unit * W;
  embeddings_create :
    jsstring -> EmbeddingCreateParams -> W -> Outcome CreateEmbeddingResponse * W;
  upsert : jsstring -> jsstring -> list PineconeRecord -> W -> Outcome unit * W;
  query : jsstring -> jsstring -> QueryOptions -> W -> Outcome QueryResponse * W }.

(** [Number.prototype.toString] of the runtime. *)
Class NumberFormat := { number_toString : float -> jsstring }.

Record State (W : Type) := {
  world : W;
  trace : list Event }.
Arguments world {W} s.
Arguments trace {W} s.

Definition init {W : Type} (w : W) : State W := {| world := w; trace := [] |}.

(** ** Computations: remote state, trace of calls, exceptions *)

Definition M (W A : Type) : Type := State W -> Outcome A * State W.

Definition ret {W A : Type} (a : A) : M W A := fun s => (Ok a, s).

Definition throw {W A : Type} (e : Exn) : M W A := fun s => (Throw e, s).

Definition bind {W A B : Type} (m : M W A) (k : A -> M W B) : M W B :=
  fun s =>
    match m s with
    | (Ok a, s') => k a s'
    | (Throw e, s') => (Throw e, s')
    end.

Declare Scope js_scope.
Delimit Scope js_scope with js.
Notation "x <- c ;; k" := (bind c (fun x => k))
  (at level 100, c at next level, right associativity) : js_scope.
Notation "c ;;; k" := (bind c (fun _ => k))
  (at level 100, right associativity) : js_scope.
Open Scope js_scope.

Definition emit {W : Type} (e : Event) : M W unit :=
  fun s => (Ok tt, {| world := world s; trace := trace s ++ [e] |}).

Definition await {W A : Type} (f : W -> Outcome A * W) : M W A :=
  fun s => let (r, w) := f (world s) in (r, {| world := w; trace := trace s |}).

(** A call of an SDK method: recorded, then performed. *)
Definition call {W A : Type} (e : Event) (f : W -> Outcome A * W) : M W A :=
  emit e ;;; await f.

Definition lift {W A : Type} (o : Outcome A) : M W A := fun s => (o, s).

(** [for (const x of xs) { await body(x) }] *)
Fixpoint for_of {W A : Type} (xs : list A) (body : A -> M W unit) : M W unit :=
  match xs with
  | [] => ret tt
  | x :: rest => body x ;;; for_of rest body
  end.

(** [xs.map(f)] where the callback may throw. *)
Fixpoint array_map {A B : Type} (f : A -> Outcome B) (xs : list A) : Outcome (list B) :=
  match xs with
  | [] => Ok []
  | x :: rest =>
      match f x with
      | Throw e => Throw e
      | Ok y =>
          match array_map f rest with
          | Throw e => Throw e
          | Ok ys => Ok (y :: ys)
          end
      end
  end.

(** ** Module-level configuration (lines 10-13) *)

(** [!v] is false exactly for a defined, non-empty string. *)
Definition truthy (v : option jsstring) : bool :=
  match v with
  | Some (_ :: _) => true
  | _ => false
  end.

(** The two keys the constructor receives, or the error of the failed guard. *)
Definition loadConfig (env : gmap (list N) (list N)) : Outcome (jsstring * jsstring) :=
  let PINECONE_API_KEY := env !! js "PINECONE_API_KEY" in
  let OPEN_AI_API_KEY := env !! js "OPEN_AI_API_KEY" in
  if negb (truthy PINECONE_API_KEY)
  then Throw (Error (js "Pinecone API key is required"))
  else if negb (truthy OPEN_AI_API_KEY)
  then Throw (Error (js "OpenAI API key is required"))
  else Ok (default [] PINECONE_API_KEY, default [] OPEN_AI_API_KEY).

(** ** class VectorDatabase *)

Record Pinecone := { pinecone_apiKey : jsstring }.
Record OpenAI := { openai_apiKey : jsstring }.

Record VectorDatabase := {
  pinecone : Pinecone;
  openai : OpenAI }.

Definition indexName : jsstring := js "recipes".
Definition dimension : Z := 1536.
Definition metric : jsstring := js "cosine".

Definition new_VectorDatabase (PINECONE_API_KEY OPEN_AI_API_KEY : jsstring)
  : VectorDatabase :=
  {| pinecone := {| pinecone_apiKey := PINECONE_API_KEY |};
     openai := {| openai_apiKey := OPEN_AI_API_KEY |} |}.

(** The literal appended to every content, as the source file stores it:
    the three code units U+00E2 U+20AC U+00A6. *)
Definition ellipsis : jsstring := [226; 8364; 166]%N.

(** The argument of [createIndex] (lines 46-56). *)
Definition createIndexOptions : CreateIndexOptions :=
  {| ci_name := indexName;
     ci_dimension := dimension;
     ci_metric := metric;
     ci_spec := {| cloud := js "aws"; region := js "us-east-1" |} |}.

Definition embeddingParams (text : jsstring) : EmbeddingCreateParams :=
  {| model := js "text-embedding-ada-002"; input := text |}.

(** The record [indexDocument] upserts (lines 79-86). *)
Definition documentRecord (document : Recipe) (values : list float) : PineconeRecord :=
  {| rec_id := id document;
     rec_values := values;
     rec_metadata :=
       Some (<[js "title" := MVString (title document)]>
               (<[js "content" := MVString (content document)]> ∅)) |}.

Definition eqb_jsstring (a b : jsstring) : bool := bool_decide (a = b).

Section VectorDatabase.
Context {W : Type} `{!Remote W} `{!NumberFormat}.

(** [v.toString()] for a metadata value. *)
Definition toString (v : RecordMetadataValue) : jsstring :=
  match v with
  | MVString s => s
  | MVBoolean true => js "true"
  | MVBoolean false => js "false"
  | MVNumber n => number_toString n
  | MVArray xs => join (js ",") xs
  end.

Definition indexExists (this : VectorDatabase) : M W bool :=
  r <- call EListIndexes (listIndexes (pinecone_apiKey (pinecone this))) ;;
  match indexes r with
  | None => ret false
  | Some l => ret (existsb (fun index => eqb_jsstring (name index) indexName) l)
  end.

Definition getIndex (this : VectorDatabase) : M W Index :=
  found <- indexExists this ;;
  if found then ret {| index_name := indexName |}
  else
    call (ECreateIndex createIndexOptions)
         (createIndex (pinecone_apiKey (pinecone this)) createIndexOptions) ;;;
    ret {| index_name := indexName |}.

Definition generateEmbedding (this : VectorDatabase) (text : jsstring)
  : M W (list float) :=
  response <- call (EEmbeddingsCreate (embeddingParams text))
                   (embeddings_create (openai_apiKey (openai this))
                                      (embeddingParams text)) ;;
  match data response with
  | [] => throw TypeError
  | first :: _ => ret (embedding first)
  end.

Definition index_upsert (this : VectorDatabase) (index : Index)
    (records : list PineconeRecord) : M W unit :=
  call (EUpsert (index_name index) records)
       (upsert (pinecone_apiKey (pinecone this)) (index_name index) records).

Definition index_query (this : VectorDatabase) (index : Index)
    (options : QueryOptions) : M W QueryResponse :=
  call (EQuery (index_name index) options)
       (query (pinecone_apiKey (pinecone this)) (index_name index) options).

Definition indexDocument (this : VectorDatabase) (document : Recipe) : M W unit :=
  index <- getIndex this ;;
  embedding <- generateEmbedding this (content document) ;;
  index_upsert this index [documentRecord document embedding].

(** Lines 103-111: what [searchResults] is bound to. *)
Definition semanticSearch_query (this : VectorDatabase) (query : jsstring)
    (topK : option Z) : M W QueryResponse :=
  let topK := default 3%Z topK in
  vector <- generateEmbedding this query ;;
  index <- getIndex this ;;
  index_query this index
    {| vector := vector; topK := topK; includeMetadata := true |}.

(** Lines 113-118: the callback given to [matches.map]. *)
Definition semanticSearch_row (m : ScoredPineconeRecord) : Outcome SearchResult :=
  match
    match match_metadata m with
    | None => Ok None
    | Some metadata =>
        match metadata !! js "content" with
        | None => Throw TypeError
        | Some v => Ok (Some (slice (toString v) 0 50))
        end
    end
  with
  | Throw e => Throw e
  | Ok sliced =>
      Ok {| sr_id := match_id m;
            sr_title :=
              match match_metadata m with
              | None => None
              | Some metadata => metadata !! js "title"
              end;
            sr_content := concat_undefined sliced ellipsis;
            sr_score := match_score m |}
  end.

Definition semanticSearch (this : VectorDatabase) (query : jsstring)
    (topK : option Z) : M W (list SearchResult) :=
  searchResults <- semanticSearch_query this query topK ;;
  lift (array_map semanticSearch_row (matches searchResults)).

(** ** The top-level script (lines 122-132) *)

Definition indexRecipe (database : VectorDatabase) (recipe : Recipe) : M W unit :=
  emit (EConsoleLog [Blue (js "Indexing recipe:"); Plain (title recipe)]) ;;;
  indexDocument database recipe.

Definition script (database : VectorDatabase) (recipes : list Recipe) : M W unit :=
  for_of recipes (indexRecipe database) ;;;
  searchResults <- semanticSearch database (js "recipes with ice cream") None ;;
  emit (EConsoleTable searchResults).

(** The whole module: [env] is [process.env] once [dotenv/config] has run. *)
Definition main (env : gmap (list N) (list N)) (recipes : list Recipe) : M W unit :=
  match loadConfig env with
  | Throw e => throw e
  | Ok (PINECONE_API_KEY, OPEN_AI_API_KEY) =>
      script (new_VectorDatabase PINECONE_API_KEY OPEN_AI_API_KEY) recipes
  end.

End VectorDatabase.

(** ** The flow as the specification words it

    Load the configuration, ensure the index once, then embed and upsert
    every document, then embed the query, search and print.  It is compared
    with [main] below. *)

Definition linear_flow {W : Type} `{!Remote W} `{!NumberFormat}
    (env : gmap (list N) (list N)) (recipes : list Recipe) : M W unit :=
  match loadConfig env with
  | Throw e => throw e
  | Ok (PINECONE_API_KEY, OPEN_AI_API_KEY) =>
      let database := new_VectorDatabase PINECONE_API_KEY OPEN_AI_API_KEY in
      index <- getIndex database ;;
      for_of recipes (fun recipe =>
        embedding <- generateEmbedding database (content recipe) ;;
        index_upsert database index [documentRecord recipe embedding]) ;;;
      vector <- generateEmbedding database (js "recipes with ice cream") ;;
      searchResults <- index_query database index
        {| vector := vector; topK := 3; includeMetadata := true |} ;;
      rows <- lift (array_map semanticSearch_row (matches searchResults)) ;;
      emit (EConsoleTable rows)
  end.

(** ** Properties of traces and responses used in the statements *)

Definition count_events (p : Event -> bool) (t : list Event) : nat :=
  length (filter (fun e => p e = true) t).

(** Every index creation asks for 1536 dimensions and the cosine metric. *)
Definition pinned (e : Event) : Prop :=
  match e with
  | ECreateIndex options =>
      ci_name options = js "recipes" /\
      ci_dimension options = 1536%Z /\
      ci_metric options = js "cosine"
  | _ => True
  end.

(** [a >= b] on scores; a missing score compares false, as [undefined] does. *)
Definition score_ge (a b : option float) : bool :=
  match a, b with
  | Some x, Some y => PrimFloat.leb y x
  | _, _ => false
  end.

Definition descending (scores : list (option float)) : Prop :=
  forall i a b,
    scores !! i = Some a -> scores !! S i = Some b -> score_ge a b = true.

Definition listed (l : IndexList) : bool :=
  match indexes l with
  | None => false
  | Some l => existsb (fun index => eqb_jsstring (name index) indexName) l
  end.

(** Contract of the vector database: an index that was just created is listed. *)
Definition created_is_listed {W : Type} `{!Remote W} : Prop :=
  forall key options w w' l w'',
    createIndex key options w = (Ok tt, w') ->
    listIndexes key w' = (Ok l, w'') ->
    existsb (fun index => eqb_jsstring (name index) (ci_name options))
            (default [] (indexes l)) = true.

(** ** A test double for the two services

    Indexes and records are kept in memory, the query answer is canned, and
    [sim_quota] is the number of calls that succeed before one is refused. *)

Record SimWorld := {
  sim_indexes : list IndexModel;
  sim_records : gmap (list N) PineconeRecord;
  sim_matches : list ScoredPineconeRecord;
  sim_quota : option nat }.

Definition sim_spend {A : Type} (f : SimWorld -> Outcome A * SimWorld)
    (w : SimWorld) : Outcome A * SimWorld :=
  match sim_quota w with
  | Some 0 => (Throw (RemoteFailure (js "quota exceeded")), w)
  | Some (S n) =>
      f {| sim_indexes := sim_indexes w; sim_records := sim_records w;
           sim_matches := sim_matches w; sim_quota := Some n |}
  | None => f w
  end.

Definition sim_has_index (n : jsstring) (w : SimWorld) : bool :=
  existsb (fun index => eqb_jsstring (name index) n) (sim_indexes w).

Definition sim_createIndex (options : CreateIndexOptions) (w : SimWorld)
  : Outcome unit * SimWorld :=
  if sim_has_index (ci_name options) w
  then (Throw (RemoteFailure (js "index already exists")), w)
  else (Ok tt,
        {| sim_indexes := sim_indexes w ++ [{| name := ci_name options |}];
           sim_records := sim_records w;
           sim_matches := sim_matches w; sim_quota := sim_quota w |}).

Definition sim_upsert (n : jsstring) (records : list PineconeRecord) (w : SimWorld)
  : Outcome unit * SimWorld :=
  if sim_has_index n w
  then (Ok tt,
        {| sim_indexes := sim_indexes w;
           sim_records :=
             foldl (fun m r => <[rec_id r := r]> m) (sim_records w) records;
           sim_matches := sim_matches w; sim_quota := sim_quota w |})
  else (Throw (RemoteFailure (js "index not found")), w).

Definition sim_embedding (text : jsstring) : list float :=
  replicate 1536 (if text is [] then 0%float else 0.5%float).

#[export] Instance sim_remote : Remote SimWorld := {|
  listIndexes _ := sim_spend (fun w => (Ok {| indexes := Some (sim_indexes w) |}, w));
  createIndex _ options := sim_spend (sim_createIndex options);
  embeddings_create _ params :=
    sim_spend (fun w => (Ok {| data := [{| embedding := sim_embedding (input params) |}] |}, w));
  upsert _ n records := sim_spend (sim_upsert n records);
  query _ n options :=
    sim_spend (fun w =>
      if sim_has_index n w
      then (Ok {| matches := take (Z.to_nat (topK options)) (sim_matches w) |}, w)
      else (Throw (RemoteFailure (js "index not found")), w)) |}.

(** A runtime double: the examples below hold string metadata only. *)
#[export] Instance sim_format : NumberFormat := {| number_toString _ := js "NaN" |}.

Definition fresh_world : SimWorld :=
  {| sim_indexes := []; sim_records := ∅; sim_matches := []; sim_quota := None |}.

Definition sample_env : gmap (list N) (list N) :=
  <[js "PINECONE_API_KEY" := js "pc-key"]> (<[js "OPEN_AI_API_KEY" := js "sk-key"]> ∅).

Definition vanilla_ice_cream : Recipe :=
  {| id := js "1"; title := js "Vanilla Ice Cream";
     content := js "Whisk cream, sugar and vanilla, then churn." |}.

Definition tomato_soup : Recipe :=
  {| id := js "2"; title := js "Tomato Soup";
     content := js "Simmer tomatoes with onion and stock." |}.

Definition grilled_cheese : Recipe :=
  {| id := js "3"; title := js "Grilled Cheese";
     content := js "Butter the bread and fry with cheese inside." |}.

Definition sample_recipes : list Recipe :=
  [vanilla_ice_cream; tomato_soup; grilled_cheese].

Definition sample_database : VectorDatabase :=
  new_VectorDatabase (js "pc-key") (js "sk-key").

(** Both keys are present, the Pinecone key with an empty value. *)
Definition empty_key_env : gmap (list N) (list N) :=
  <[js "PINECONE_API_KEY" := []]> (<[js "OPEN_AI_API_KEY" := js "sk-key"]> ∅).

(** The services refuse the seventh call: the upsert of the second recipe. *)
Definition rationed_world : SimWorld :=
  {| sim_indexes := []; sim_records := ∅; sim_matches := []; sim_quota := Some 6 |}.



Definition sample_matches : list ScoredPineconeRecord :=
  [ {| match_id := js "1"; match_score := Some 0.75%float;
       match_metadata :=
         Some (<[js "title" := MVString (js "Vanilla Ice Cream")]>
                 (<[js "content" := MVString (replicate 500 97%N)]> ∅)) |};
    {| match_id := js "2"; match_score := Some 0.5%float;
       match_metadata :=
         Some (<[js "title" := MVString (js "Tomato Soup")]>
                 (<[js "content" := MVString (js "Simmer.")]> ∅)) |};
    {| match_id := js "3"; match_score := Some 0.25%float;
       match_metadata := None |} ].

(** The index exists and the query answer is [sample_matches]. *)
Definition search_world : SimWorld :=
  {| sim_indexes := [{| name := js "recipes" |}]; sim_records := ∅;
     sim_matches := sample_matches; sim_quota := None |}.

Definition sample_response : QueryResponse := {| matches := sample_matches |}.

Definition sample_results : list SearchResult :=
  match (semanticSearch sample_database (js "recipes with ice cream") None
           (init search_world)).1 with
  | Ok rows => rows
  | Throw _ => []
  end.

Definition sample_search_state : State SimWorld :=
  (semanticSearch_query sample_database (js "recipes with ice cream") None
     (init search_world)).2.

Definition network_calls (t : list Event) : list Event :=
  filter (fun e => is_network e = true) t.

(** The script and the flow of the specification's wording, run on the same input. *)
Definition sample_run : Outcome unit * State SimWorld :=
  main sample_env sample_recipes (init fresh_world).

Definition sample_linear_run : Outcome unit * State SimWorld :=
  linear_flow sample_env sample_recipes (init fresh_world).

(** The content a match carries, as the string [toString] makes of it. *)
Definition stored_content `{!NumberFormat} (m : ScoredPineconeRecord) : option jsstring :=
  match match_metadata m with
  | None => None
  | Some metadata => toString <$> metadata !! js "content"
  end.

(** Ids of the records the upsert calls of a trace carry, in order. *)
Definition upserted (t : list Event) : list jsstring :=
  t ≫= fun e =>
    match e with
    | EUpsert _ records => rec_id <$> records
    | _ => []
    end.

(** The calls of one [getIndex]. *)
Definition ensure_trace (t : list Event) : Prop :=
  t = [EListIndexes] \/ t = [EListIndexes; ECreateIndex createIndexOptions].

(** The events of one iteration of the indexing loop. *)
Definition document_trace (d : Recipe) (t : list Event) : Prop :=
  exists te values,
    ensure_trace te /\
    t = EConsoleLog [Blue (js "Indexing recipe:"); Plain (title d)]
          :: te ++ [EEmbeddingsCreate (embeddingParams (content d));
                    EUpsert indexName [documentRecord d values]].

(** The events of the final search and of the printing of its rows. *)
Definition search_trace (t : list Event) : Prop :=
  exists te values rows,
    ensure_trace te /\
    t = EEmbeddingsCreate (embeddingParams (js "recipes with ice cream"))
          :: te ++ [EQuery indexName
                      {| vector := values; topK := 3; includeMetadata := true |};
                    EConsoleTable rows].

(** A computation keeps every event of the trace in [P]. *)
Definition keeps {W A : Type} (P : Event -> Prop) (m : M W A) : Prop :=
  forall s, Forall P (trace s) -> Forall P (trace (m s).2).

(** ** Further vocabulary for statements about whole runs *)

Definition is_embeddingsCreate (e : Event) : bool :=
  match e with EEmbeddingsCreate _ => true | _ => false end.

Definition is_upsert (e : Event) : bool :=
  match e with EUpsert _ _ => true | _ => false end.

Definition is_query (e : Event) : bool :=
  match e with EQuery _ _ => true | _ => false end.

Definition is_consoleLog (e : Event) : bool :=
  match e with EConsoleLog _ => true | _ => false end.

Definition is_consoleTable (e : Event) : bool :=
  match e with EConsoleTable _ => true | _ => false end.

(** Every value a computation returns satisfies [Q]. *)
Definition returns {W A : Type} (Q : A -> Prop) (m : M W A) : Prop :=
  forall s a s', m s = (Ok a, s') -> Q a.

(** A computation keeps a property of the state, however it ends. *)
Definition preserves {W A : Type} (J : State W -> Prop) (m : M W A) : Prop :=
  forall s, J s -> J (m s).2.

(** The events a run of the script over [recipes] can produce. *)
Definition scripted (recipes : list Recipe) (e : Event) : Prop :=
  match e with
  | EListIndexes => True
  | ECreateIndex options => options = createIndexOptions
  | EEmbeddingsCreate params =>
      model params = js "text-embedding-ada-002" /\
      (input params = js "recipes with ice cream" \/
       exists d, d ∈ recipes /\ input params = content d)
  | EUpsert index records =>
      index = js "recipes" /\
      exists d values, d ∈ recipes /\ records = [documentRecord d values]
  | EQuery index options =>
      index = js "recipes" /\ topK options = 3%Z /\ includeMetadata options = true
  | EConsoleLog args =>
      exists d, d ∈ recipes /\ args = [Blue (js "Indexing recipe:"); Plain (title d)]
  | EConsoleTable _ => True
  end.

(** A condition [Inv] on the state of the services under which the index
    stays listed: a listing that is answered names it, and no call other
    than a creation leaves the condition. *)
Definition keeps_listing {W : Type} `{!Remote W} (Inv : W -> Prop) : Prop :=
  (forall key w l w', Inv w -> listIndexes key w = (Ok l, w') -> listed l = true) /\
  (forall key w o w', Inv w -> listIndexes key w = (o, w') -> Inv w') /\
  (forall key params w o w', Inv w -> embeddings_create key params w = (o, w') -> Inv w') /\
  (forall key n records w o w', Inv w -> upsert key n records w = (o, w') -> Inv w') /\
  (forall key n options w o w', Inv w -> query key n options w = (o, w') -> Inv w').

(** The state of the services lists the index and no creation was recorded. *)
Definition settled {W : Type} (Inv : W -> Prop) (s : State W) : Prop :=
  Inv (world s) /\ Forall (fun e => is_createIndex e = false) (trace s).

(** UTF-16 surrogates: a character outside the basic plane is a high
    surrogate followed by a low one. *)
Definition is_high_surrogate (c : N) : bool := ((55296 <=? c) && (c <=? 56319))%N.
Definition is_low_surrogate (c : N) : bool := ((56320 <=? c) && (c <=? 57343))%N.

(** ** A second test double: every call gets a fixed answer *)

Record Canned := {
  canned_listing : Outcome IndexList;
  canned_creation : Outcome unit;
  canned_embedding : Outcome CreateEmbeddingResponse;
  canned_upsert : Outcome unit;
  canned_query : Outcome QueryResponse }.

#[export] Instance canned_remote : Remote Canned := {|
  listIndexes _ w := (canned_listing w, w);
  createIndex _ _ w := (canned_creation w, w);
  embeddings_create _ _ w := (canned_embedding w, w);
  upsert _ _ _ w := (canned_upsert w, w);
  query _ _ _ w := (canned_query w, w) |}.

(** The listing has no [indexes] field and the creation is refused. *)
Definition conflicting_service : Canned :=
  {| canned_listing := Ok {| indexes := None |};
     canned_creation := Throw (RemoteFailure (js "index already exists"));
     canned_embedding := Ok {| data := [] |};
     canned_upsert := Ok tt;
     canned_query := Ok {| matches := [] |} |}.

(** The listing has no [indexes] field and the creation is accepted; the
    embedding answer holds no vector. *)
Definition unlisted_service : Canned :=
  {| canned_listing := Ok {| indexes := None |};
     canned_creation := Ok tt;
     canned_embedding := Ok {| data := [] |};
     canned_upsert := Ok tt;
     canned_query := Ok {| matches := [] |} |}.

(** The second match of the answer has metadata with a title only. *)
Definition untitled_matches : list ScoredPineconeRecord :=
  [ {| match_id := js "1"; match_score := Some 0.75%float;
       match_metadata :=
         Some (<[js "content" := MVString (js "Churn.")]> ∅) |};
    {| match_id := js "2"; match_score := Some 0.5%float;
       match_metadata :=
         Some (<[js "title" := MVString (js "Tomato Soup")]> ∅) |} ].

Definition contentless_service : Canned :=
  {| canned_listing := Ok {| indexes := Some [{| name := js "recipes" |}] |};
     canned_creation := Ok tt;
     canned_embedding := Ok {| data := [{| embedding := [0.5%float] |}] |};
     canned_upsert := Ok tt;
     canned_query := Ok {| matches := untitled_matches |} |}.

(** The services refuse the third call: the embedding of the first recipe. *)
Definition stingy_world : SimWorld :=
  {| sim_indexes := []; sim_records := ∅; sim_matches := []; sim_quota := Some 2 |}.

(** The services refuse every call. *)
Definition closed_world : SimWorld :=
  {| sim_indexes := []; sim_records := ∅; sim_matches := []; sim_quota := Some 0 |}.

(** A content whose code units 49 and 50 are the surrogate pair of U+1F366. *)
Definition astral_content : jsstring := replicate 49 97%N ++ [55356; 57190; 33]%N.

Definition astral_match : ScoredPineconeRecord :=
  {| match_id := js "9"; match_score := None;
     match_metadata := Some (<[js "content" := MVString astral_content]> ∅) |}.

(** The embedding answer holds two vectors, of two and of one component. *)
Definition two_vector_service : Canned :=
  {| canned_listing := Ok {| indexes := Some [{| name := js "recipes" |}] |};
     canned_creation := Ok tt;
     canned_embedding :=
       Ok {| data := [{| embedding := [0.5%float; 0.25%float] |};
                      {| embedding := [1%float] |}] |};
     canned_upsert := Ok tt;
     canned_query := Ok {| matches := [] |} |}.

(** A stored content that is 50 code units followed by the marker itself. *)
Definition marked_content : jsstring := replicate 50 97%N ++ ellipsis.

Definition marked_match : ScoredPineconeRecord :=
  {| match_id := js "7"; match_score := Some 0.5%float;
     match_metadata := Some (<[js "content" := MVString marked_content]> ∅) |}.

Definition marked_world : SimWorld :=
  {| sim_indexes := [{| name := js "recipes" |}]; sim_records := ∅;
     sim_matches := [marked_match]; sim_quota := None |}.

(** ** The steps of a completed run, call by call

    Each relation says which calls a step made, in which state of the
    services each was made and what it was answered. *)

(** Ensuring the index: the listing is answered; when it names the index
    nothing else is called, and when it does not, the creation is called
    and accepted. *)
Definition ensure_step {W : Type} `{!Remote W}
    (this : VectorDatabase) (s s' : State W) : Prop :=
  exists l w1,
    listIndexes (pinecone_apiKey (pinecone this)) (world s) = (Ok l, w1) /\
    if listed l
    then s' = {| world := w1; trace := trace s ++ [EListIndexes] |}
    else exists w2,
      createIndex (pinecone_apiKey (pinecone this)) createIndexOptions w1
        = (Ok tt, w2) /\
      s' = {| world := w2;
              trace := trace s ++ [EListIndexes; ECreateIndex createIndexOptions] |}.

(** Embedding [text]: the one call is answered and [values] is the first
    vector of the answer. *)
Definition embed_step {W : Type} `{!Remote W}
    (this : VectorDatabase) (text : jsstring) (values : list float)
    (s s' : State W) : Prop :=
  exists response w1 first,
    embeddings_create (openai_apiKey (openai this)) (embeddingParams text) (world s)
      = (Ok response, w1) /\
    head (data response) = Some first /\
    values = embedding first /\
    s' = {| world := w1;
            trace := trace s ++ [EEmbeddingsCreate (embeddingParams text)] |}.

(** One document: the progress notice, the index ensured, the content
    embedded, the record upserted. *)
Definition document_step {W : Type} `{!Remote W}
    (this : VectorDatabase) (d : Recipe) (s s' : State W) : Prop :=
  exists s1 values s2 w3,
    ensure_step this
      {| world := world s;
         trace := trace s ++ [EConsoleLog [Blue (js "Indexing recipe:");
                                           Plain (title d)]] |} s1 /\
    embed_step this (content d) values s1 s2 /\
    upsert (pinecone_apiKey (pinecone this)) (js "recipes")
      [documentRecord d values] (world s2) = (Ok tt, w3) /\
    s' = {| world := w3;
            trace := trace s2 ++ [EUpsert (js "recipes") [documentRecord d values]] |}.

(** The documents one after the other, in the order of the list. *)
Fixpoint loop_steps {W : Type} `{!Remote W}
    (this : VectorDatabase) (recipes : list Recipe) (s s' : State W) : Prop :=
  match recipes with
  | [] => s' = s
  | d :: rest => exists s1, document_step this d s s1 /\ loop_steps this rest s1 s'
  end.

(** The search: the fixed query embedded, the index ensured, the query asked
    with [topK] 3, the rows made and printed. *)
Definition search_step {W : Type} `{!Remote W} `{!NumberFormat}
    (this : VectorDatabase) (s s' : State W) : Prop :=
  exists values s1 s2 response w3 rows,
    embed_step this (js "recipes with ice cream") values s s1 /\
    ensure_step this s1 s2 /\
    query (pinecone_apiKey (pinecone this)) (js "recipes")
      {| vector := values; topK := 3; includeMetadata := true |} (world s2)
      = (Ok response, w3) /\
    array_map semanticSearch_row (matches response) = Ok rows /\
    s' = {| world := w3;
            trace := trace s2 ++
              [EQuery (js "recipes")
                 {| vector := values; topK := 3; includeMetadata := true |};
               EConsoleTable rows] |}.

(** ** Which key each service is shown *)

Inductive Service : Type := PineconeService | OpenAIService.

(** Any services, together with a record of the key each call presents. *)
Definition audited {W : Type} (R : Remote W)
  : Remote (W * list (Service * jsstring)) :=
  {| listIndexes key a :=
       let (o, w') := listIndexes key a.1 in
       (o, (w', a.2 ++ [(PineconeService, key)]));
     createIndex key options a :=
       let (o, w') := createIndex key options a.1 in
       (o, (w', a.2 ++ [(PineconeService, key)]));
     embeddings_create key params a :=
       let (o, w') := embeddings_create key params a.1 in
       (o, (w', a.2 ++ [(OpenAIService, key)]));
     upsert key n records a :=
       let (o, w') := upsert key n records a.1 in
       (o, (w', a.2 ++ [(PineconeService, key)]));
     query key n options a :=
       let (o, w') := query key n options a.1 in
       (o, (w', a.2 ++ [(PineconeService, key)])) |}.

Definition env_name (service : Service) : jsstring :=
  match service with
  | PineconeService => js "PINECONE_API_KEY"
  | OpenAIService => js "OPEN_AI_API_KEY"
  end.

(** The key presented is the non-empty value the environment holds for the service. *)
Definition key_of_env (env : gmap (list N) (list N)) (use : Service * jsstring) : Prop :=
  use.2 <> [] /\ env !! env_name use.1 = Some use.2.

Definition keys_of_env {W : Type} (env : gmap (list N) (list N))
    (s : State (W * list (Service * jsstring))) : Prop :=
  Forall (key_of_env env) (world s).2.

(** * Properties *)

Section Laws.
Context {W : Type}.

Lemma bind_ok {A B : Type} (m : M W A) (k : A -> M W B) s a s1 :
  m s = (Ok a, s1) -> bind m k s = k a s1.
Proof. intros E. unfold bind. now rewrite E. Qed.

Lemma bind_throw {A B : Type} (m : M W A) (k : A -> M W B) s e s1 :
  m s = (Throw e, s1) -> bind m k s = (Throw e, s1).
Proof. intros E. unfold bind. now rewrite E. Qed.

Lemma bind_inv_ok {A B : Type} (m : M W A) (k : A -> M W B) s b s' :
  bind m k s = (Ok b, s') ->
  exists a s1, m s = (Ok a, s1) /\ k a s1 = (Ok b, s').
Proof.
  unfold bind. destruct (m s) as [[a|e] s1]; intros E.
  - eauto.
  - discriminate.
Qed.


Lemma array_map_Forall2 {A B : Type} (f : A -> Outcome B) xs ys :
  array_map f xs = Ok ys -> Forall2 (fun x y => f x = Ok y) xs ys.
Proof.
  revert ys. induction xs as [|x xs IH]; simpl; intros ys E.
  - injection E as <-. constructor.
  - destruct (f x) as [y|e] eqn:Ex; [|discriminate].
    destruct (array_map f xs) as [zs|e]; [|discriminate].
    injection E as <-. constructor; auto.
Qed.

Lemma array_map_total {A B : Type} (f : A -> Outcome B) xs :
  Forall (fun x => exists y, f x = Ok y) xs -> exists ys, array_map f xs = Ok ys.
Proof.
  induction 1 as [|x xs [y Ex] _ [ys IH]]; simpl.
  - eauto.
  - rewrite Ex, IH. eauto.
Qed.

(** *** Trace invariants *)

Lemma keeps_ret {A : Type} P (a : A) : keeps (W:=W) P (ret a).
Proof. intros s H. exact H. Qed.

Lemma keeps_throw {A : Type} P e : keeps (W:=W) (A:=A) P (throw e).
Proof. intros s H. exact H. Qed.

Lemma keeps_lift {A : Type} P (o : Outcome A) : keeps (W:=W) P (lift o).
Proof. intros s H. exact H. Qed.

Lemma keeps_emit P e : P e -> keeps (W:=W) P (emit e).
Proof. intros He s H. simpl. apply Forall_app. split; [exact H|]. now constructor. Qed.

Lemma keeps_await {A : Type} P (f : W -> Outcome A * W) : keeps P (await f).
Proof. intros s H. unfold await. destruct (f (world s)). exact H. Qed.

Lemma keeps_bind {A B : Type} P (m : M W A) (k : A -> M W B) :
  keeps P m -> (forall a, keeps P (k a)) -> keeps P (bind m k).
Proof.
  intros Hm Hk s H. unfold bind. specialize (Hm s H).
  destruct (m s) as [[a|e] s1]; simpl in *.
  - now apply Hk.
  - exact Hm.
Qed.

Lemma keeps_call {A : Type} P e (f : W -> Outcome A * W) : P e -> keeps P (call e f).
Proof. intros He. apply keeps_bind; [now apply keeps_emit|intros _; apply keeps_await]. Qed.

Lemma keeps_for_of {A : Type} P (xs : list A) (body : A -> M W unit) :
  (forall x, keeps P (body x)) -> keeps P (for_of xs body).
Proof.
  intros Hb. induction xs as [|x xs IH]; simpl.
  - apply keeps_ret.
  - apply keeps_bind; [apply Hb|intros _; exact IH].
Qed.

End Laws.

Create HintDb keeps.
#[export] Hint Resolve keeps_ret keeps_throw keeps_lift keeps_emit keeps_await
  keeps_bind keeps_call keeps_for_of : keeps.

Section Operations.
Context {W : Type} `{!Remote W} `{!NumberFormat}.

Lemma pinned_createIndexOptions : pinned (ECreateIndex createIndexOptions).
Proof. repeat split. Qed.

Lemma keeps_getIndex this : keeps (W:=W) pinned (getIndex this).
Proof.
  unfold getIndex, indexExists.
  apply keeps_bind.
  - apply keeps_bind; [apply keeps_call; exact I|].
    intros r. destruct (indexes r); apply keeps_ret.
  - intros [|]; auto using pinned_createIndexOptions with keeps.
Qed.

Lemma keeps_generateEmbedding this text :
  keeps (W:=W) pinned (generateEmbedding this text).
Proof.
  unfold generateEmbedding.
  apply keeps_bind; [apply keeps_call; exact I|].
  intros r. destruct (data r); auto with keeps.
Qed.

Lemma keeps_indexDocument this document :
  keeps (W:=W) pinned (indexDocument this document).
Proof.
  unfold indexDocument, index_upsert.
  apply keeps_bind; [apply keeps_getIndex|intros index].
  apply keeps_bind; [apply keeps_generateEmbedding|intros values].
  apply keeps_call. exact I.
Qed.

Lemma keeps_semanticSearch this text k :
  keeps (W:=W) pinned (semanticSearch this text k).
Proof.
  unfold semanticSearch, semanticSearch_query, index_query.
  apply keeps_bind; [|intros; apply keeps_lift].
  apply keeps_bind; [apply keeps_generateEmbedding|intros values].
  apply keeps_bind; [apply keeps_getIndex|intros index].
  apply keeps_call. exact I.
Qed.

Lemma keeps_script database recipes : keeps (W:=W) pinned (script database recipes).
Proof.
  unfold script, indexRecipe.
  apply keeps_bind.
  - apply keeps_for_of. intros recipe.
    apply keeps_bind; [apply keeps_emit; exact I|intros _; apply keeps_indexDocument].
  - intros _. apply keeps_bind; [apply keeps_semanticSearch|].
    intros rows. apply keeps_emit. exact I.
Qed.

(** C6: whatever the environment, the corpus and the behaviour of the two
    services, every [createIndex] call of a run of the script names the
    index [recipes] with dimension 1536 and the cosine metric; this holds
    for the trace of a completed run and of a run that stopped on an
    error alike. *)
Theorem createIndex_dimension_metric_fixed env recipes (w : W) :
  Forall pinned (trace (main env recipes (init w)).2).
Proof.
  assert (K : keeps (W:=W) pinned (main env recipes)).
  { unfold main. destruct (loadConfig env) as [[pk ok]|e].
    - apply keeps_script.
    - apply keeps_throw. }
  apply K. constructor.
Qed.

Lemma listed_indexName (l : IndexList) :
  existsb (fun index => eqb_jsstring (name index) (ci_name createIndexOptions))
          (default [] (indexes l)) = true ->
  listed l = true.
Proof.
  unfold listed. destruct (indexes l) as [idx|]; simpl.
  - intros E. exact E.
  - discriminate.
Qed.

Lemma getIndex_found this s l w1 :
  listIndexes (pinecone_apiKey (pinecone this)) (world s) = (Ok l, w1) ->
  listed l = true ->
  getIndex this s =
    (Ok {| index_name := indexName |},
     {| world := w1; trace := trace s ++ [EListIndexes] |}).
Proof.
  intros E L. unfold getIndex, indexExists, call, bind, emit, await, listed in *.
  simpl. rewrite E. destruct (indexes l) as [idx|]; [|discriminate].
  unfold ret. now rewrite L.
Qed.

Lemma getIndex_created this s l w1 w2 :
  listIndexes (pinecone_apiKey (pinecone this)) (world s) = (Ok l, w1) ->
  listed l = false ->
  createIndex (pinecone_apiKey (pinecone this)) createIndexOptions w1 = (Ok tt, w2) ->
  getIndex this s =
    (Ok {| index_name := indexName |},
     {| world := w2;
        trace := trace s ++ [EListIndexes; ECreateIndex createIndexOptions] |}).
Proof.
  intros E L C. unfold getIndex, indexExists, call, bind, emit, await, listed in *.
  simpl. rewrite E.
  destruct (indexes l) as [idx|]; unfold ret; simpl; [rewrite L|];
    simpl; rewrite C; rewrite <- app_assoc; reflexivity.
Qed.

Lemma count_events_app p (t1 t2 : list Event) :
  count_events p (t1 ++ t2) = count_events p t1 + count_events p t2.
Proof. unfold count_events. now rewrite filter_app, length_app. Qed.

(** C2: starting with the index not listed, two [getIndex] calls in a row
    make exactly one [createIndex] call between them (the first call lists,
    creates, and the second only lists), and each returns a handle to the
    index named [recipes].  The services are assumed to answer the three
    calls, and to list an index that was just created. *)
Theorem getIndex_twice_creates_once this (s : State W) l0 w1 w2 l2 w3 :
  created_is_listed ->
  listIndexes (pinecone_apiKey (pinecone this)) (world s) = (Ok l0, w1) ->
  listed l0 = false ->
  createIndex (pinecone_apiKey (pinecone this)) createIndexOptions w1 = (Ok tt, w2) ->
  listIndexes (pinecone_apiKey (pinecone this)) w2 = (Ok l2, w3) ->
  exists s1 s2,
    getIndex this s = (Ok {| index_name := js "recipes" |}, s1) /\
    getIndex this s1 = (Ok {| index_name := js "recipes" |}, s2) /\
    trace s1 = trace s ++ [EListIndexes; ECreateIndex createIndexOptions] /\
    trace s2 = trace s1 ++ [EListIndexes] /\
    count_events is_createIndex (trace s2) =
      count_events is_createIndex (trace s) + 1 /\
    world s2 = w3.
Proof.
  intros contract E0 L0 C E2. unfold created_is_listed in contract.
  pose proof (listed_indexName l2 (contract _ _ _ _ _ _ C E2)) as L2.
  eexists _, _. split; [|split].
  - apply (getIndex_created this s l0 w1 w2 E0 L0 C).
  - apply (getIndex_found this _ l2 w3); [exact E2|exact L2].
  - simpl. repeat split.
    rewrite !count_events_app.
    change (count_events is_createIndex [EListIndexes; ECreateIndex createIndexOptions])
      with 1.
    change (count_events is_createIndex [EListIndexes]) with 0. lia.
Qed.

(** C7, as the code has it: whenever the embedding service answers with at
    least one embedding, [generateEmbedding] returns the vector of the first
    one, as it is and whatever its length, after its one call; no length is
    checked, so the result has 1536 components exactly when that first
    vector has. *)
Theorem generateEmbedding_returns_first
    this text (s : State W) response w' first others :
  embeddings_create (openai_apiKey (openai this)) (embeddingParams text) (world s)
    = (Ok response, w') ->
  data response = first :: others ->
  generateEmbedding this text s =
    (Ok (embedding first),
     {| world := w'; trace := trace s ++ [EEmbeddingsCreate (embeddingParams text)] |}) /\
  forall values s',
    generateEmbedding this text s = (Ok values, s') ->
    values = embedding first /\
    (length values = 1536 <-> length (embedding first) = 1536).
Proof.
  intros E D.
  assert (G : generateEmbedding this text s =
                (Ok (embedding first),
                 {| world := w';
                    trace := trace s ++ [EEmbeddingsCreate (embeddingParams text)] |})).
  { unfold generateEmbedding, call, bind, emit, await. simpl.
    rewrite E, D. reflexivity. }
  split; [exact G|].
  intros values s' G'. rewrite G in G'. injection G' as <- _.
  split; [reflexivity|]. split; auto.
Qed.

End Operations.

Section Search.
Context {W : Type} `{!Remote W} `{!NumberFormat}.

Lemma slice_0_50 (s : jsstring) : slice s 0 50 = take 50 s.
Proof. reflexivity. Qed.

Lemma semanticSearch_row_stored m stored :
  stored_content m = Some stored ->
  semanticSearch_row m =
    Ok {| sr_id := match_id m;
          sr_title := match match_metadata m with
                      | None => None
                      | Some metadata => metadata !! js "title"
                      end;
          sr_content := take 50 stored ++ ellipsis;
          sr_score := match_score m |}.
Proof.
  unfold stored_content, semanticSearch_row.
  destruct (match_metadata m) as [metadata|]; [|discriminate].
  destruct (metadata !! js "content") as [v|]; [|discriminate].
  simpl. intros [= <-]. reflexivity.
Qed.

Lemma semanticSearch_row_no_metadata m :
  match_metadata m = None ->
  semanticSearch_row m =
    Ok {| sr_id := match_id m;
          sr_title := None;
          sr_content := js "undefined" ++ ellipsis;
          sr_score := match_score m |}.
Proof. unfold semanticSearch_row. intros ->. reflexivity. Qed.

Lemma semanticSearch_row_inv m r :
  semanticSearch_row m = Ok r ->
  sr_id r = match_id m /\ sr_score r = match_score m /\
  ((match_metadata m = None /\ sr_title r = None /\
    sr_content r = js "undefined" ++ ellipsis) \/
   (exists stored,
      stored_content m = Some stored /\ sr_content r = take 50 stored ++ ellipsis)).
Proof.
  unfold semanticSearch_row, stored_content.
  destruct (match_metadata m) as [metadata|].
  - destruct (metadata !! js "content") as [v|]; [|discriminate].
    intros [= <-]. simpl. split; [reflexivity|]. split; [reflexivity|].
    right. exists (toString v). split; reflexivity.
  - intros [= <-]. simpl. split; [reflexivity|]. split; [reflexivity|].
    left. repeat split.
Qed.

Lemma semanticSearch_inv this text k (s : State W) results s' :
  semanticSearch this text k s = (Ok results, s') ->
  exists response,
    semanticSearch_query this text k s = (Ok response, s') /\
    array_map semanticSearch_row (matches response) = Ok results.
Proof.
  unfold semanticSearch. intros E.
  apply bind_inv_ok in E as (response & s1 & E1 & E2).
  unfold lift in E2. injection E2 as E2 <-. eauto.
Qed.

Lemma semanticSearch_rows this text k (s : State W) response results s' :
  semanticSearch_query this text k s = (Ok response, s') ->
  semanticSearch this text k s = (Ok results, s') ->
  Forall2 (fun m r => semanticSearch_row m = Ok r) (matches response) results.
Proof.
  intros Q E. apply semanticSearch_inv in E as (response' & Q' & E).
  rewrite Q in Q'. injection Q' as <-. now apply array_map_Forall2.
Qed.

Lemma rows_Forall (P : SearchResult -> Prop) ms rs :
  (forall m r, semanticSearch_row m = Ok r -> P r) ->
  Forall2 (fun m r => semanticSearch_row m = Ok r) ms rs -> Forall P rs.
Proof. intros HP. induction 1; constructor; eauto. Qed.

Lemma rows_id_score ms rs :
  Forall2 (fun m r => semanticSearch_row m = Ok r) ms rs ->
  sr_id <$> rs = match_id <$> ms /\ sr_score <$> rs = match_score <$> ms.
Proof.
  induction 1 as [|m r ms rs Hr _ [IH1 IH2]]; [split; reflexivity|].
  apply semanticSearch_row_inv in Hr as (Hi & Hs & _).
  rewrite !fmap_cons, IH1, IH2, Hi, Hs. split; reflexivity.
Qed.

Lemma content_bound m r :
  semanticSearch_row m = Ok r -> length (sr_content r) <= 50 + length ellipsis.
Proof.
  intros E. apply semanticSearch_row_inv in E as (_ & _ & [(_ & _ & ->)|(stored & _ & ->)]).
  - rewrite length_app. change (length (js "undefined")) with 9. lia.
  - rewrite length_app, length_take. lia.
Qed.

(** C3: in every row [semanticSearch] returns, the content is at most 50
    code units followed by the ellipsis marker; a stored content of 500
    code units gives exactly its first 50 code units followed by the
    marker. *)
Theorem content_never_exceeds_50_plus_ellipsis
    this text k (s : State W) response results s' :
  semanticSearch_query this text k s = (Ok response, s') ->
  semanticSearch this text k s = (Ok results, s') ->
  Forall (fun r => length (sr_content r) <= 50 + length ellipsis) results /\
  Forall2 (fun m r =>
             forall stored,
               stored_content m = Some stored -> length stored = 500 ->
               sr_content r = take 50 stored ++ ellipsis /\
               length (take 50 stored) = 50)
          (matches response) results.
Proof.
  intros Q E. pose proof (semanticSearch_rows _ _ _ _ _ _ _ Q E) as R.
  split.
  - eapply rows_Forall; [|exact R]. apply content_bound.
  - eapply Forall2_impl; [exact R|].
    intros m r Hr stored St Len. simpl in Hr.
    rewrite (semanticSearch_row_stored m stored St) in Hr. injection Hr as <-.
    simpl. split; [reflexivity|]. rewrite length_take. lia.
Qed.

(** C8: [semanticSearch] returns one row per match of the query response,
    in the same order and with the same id and score; so when the matches
    arrive with non-increasing scores, every adjacent pair of rows has
    [score[i] >= score[i+1]]. *)
Theorem semanticSearch_preserves_order
    this text k (s : State W) response results s' :
  semanticSearch_query this text k s = (Ok response, s') ->
  semanticSearch this text k s = (Ok results, s') ->
  sr_id <$> results = match_id <$> matches response /\
  sr_score <$> results = match_score <$> matches response /\
  (descending (match_score <$> matches response) ->
   descending (sr_score <$> results)).
Proof.
  intros Q E. pose proof (semanticSearch_rows _ _ _ _ _ _ _ Q E) as R.
  destruct (rows_id_score _ _ R) as [I1 I2]. repeat split; [exact I1|exact I2|].
  now rewrite I2.
Qed.

(** C9, as the code has it: the marker is appended to every row's content
    whatever the length of the stored content: the content is the first 50
    code units of the stored content, which is all of it when it has 50 or
    fewer, followed by the marker; in that case it is the stored content
    plus the marker and so differs from the stored content.  The content
    equals the stored content in one case only: the stored content is
    itself 50 code units followed by the marker. *)
Theorem ellipsis_appended_unconditionally
    this text k (s : State W) response results s' :
  semanticSearch_query this text k s = (Ok response, s') ->
  semanticSearch this text k s = (Ok results, s') ->
  Forall (fun r => exists shown, sr_content r = shown ++ ellipsis) results /\
  Forall2 (fun m r =>
             forall stored,
               stored_content m = Some stored ->
               sr_content r = take 50 stored ++ ellipsis /\
               (length stored <= 50 ->
                sr_content r = stored ++ ellipsis /\ sr_content r <> stored) /\
               (sr_content r = stored <->
                length stored = 50 + length ellipsis /\ drop 50 stored = ellipsis))
          (matches response) results.
Proof.
  intros Q E. pose proof (semanticSearch_rows _ _ _ _ _ _ _ Q E) as R.
  split.
  - eapply rows_Forall; [|exact R]. intros m r Hr.
    apply semanticSearch_row_inv in Hr as (_ & _ & [(_ & _ & ->)|(stored & _ & ->)]); eauto.
  - eapply Forall2_impl; [exact R|].
    intros m r Hr stored St. simpl in Hr.
    rewrite (semanticSearch_row_stored m stored St) in Hr. injection Hr as <-.
    simpl. split; [reflexivity|]. split.
    + intros Len. rewrite take_ge by lia. split; [reflexivity|].
      intros Eq. apply (f_equal length) in Eq. rewrite length_app in Eq.
      change (length ellipsis) with 3 in Eq. lia.
    + change (length ellipsis) with 3. split.
      * intros Eq.
        assert (Len : length stored = 53).
        { apply (f_equal length) in Eq. rewrite length_app, length_take in Eq.
          change (length ellipsis) with 3 in Eq. lia. }
        split; [exact Len|].
        rewrite <- Eq at 1. apply drop_app_length'. rewrite length_take. lia.
      * intros [_ Hd]. rewrite <- Hd. apply take_drop.
Qed.

(** C10: a match without metadata does not make [semanticSearch] fail.
    When every match of the response either has no metadata or has a
    content entry, [semanticSearch] returns its rows, and the row of each
    match without metadata has an undefined title and the content
    [undefined] followed by the marker. *)
Theorem missing_metadata_gives_undefined
    this text k (s : State W) response s' :
  semanticSearch_query this text k s = (Ok response, s') ->
  Forall (fun m => match_metadata m = None \/ is_Some (stored_content m))
         (matches response) ->
  exists results,
    semanticSearch this text k s = (Ok results, s') /\
    Forall2 (fun m r =>
               match_metadata m = None ->
               sr_title r = None /\ sr_content r = js "undefined" ++ ellipsis)
            (matches response) results.
Proof.
  intros Q T.
  destruct (array_map_total semanticSearch_row (matches response)) as [results A].
  { eapply Forall_impl; [exact T|]. intros m [N|[stored St]].
    - rewrite (semanticSearch_row_no_metadata m N). eauto.
    - rewrite (semanticSearch_row_stored m stored St). eauto. }
  exists results. split.
  - unfold semanticSearch. rewrite (bind_ok _ _ _ _ _ Q). unfold lift. now rewrite A.
  - apply array_map_Forall2 in A. eapply Forall2_impl; [exact A|].
    intros m r Hr N. simpl in Hr. rewrite (semanticSearch_row_no_metadata m N) in Hr.
    injection Hr as <-. split; reflexivity.
Qed.

End Search.

Section Script.
Context {W : Type} `{!Remote W} `{!NumberFormat}.

Local Ltac run :=
  unfold getIndex, indexExists, generateEmbedding, index_upsert, index_query,
    call, bind, emit, await, ret, throw, lift in *;
  simpl in *; repeat case_match; simplify_eq/=.

Lemma ensure_trace_list : ensure_trace [EListIndexes].
Proof. now left. Qed.

Lemma ensure_trace_create :
  ensure_trace [EListIndexes; ECreateIndex createIndexOptions].
Proof. now right. Qed.

Lemma getIndex_trace this (s : State W) o s' :
  getIndex this s = (o, s') ->
  exists te, ensure_trace te /\ trace s' = trace s ++ te.
Proof.
  intros E. run;
    first [ exists [EListIndexes]; split; [apply ensure_trace_list|reflexivity]
          | exists [EListIndexes; ECreateIndex createIndexOptions];
            split; [apply ensure_trace_create|now rewrite <- app_assoc] ].
Qed.

Lemma getIndex_handle this (s : State W) index s' :
  getIndex this s = (Ok index, s') -> index = {| index_name := indexName |}.
Proof. intros E. run; reflexivity. Qed.

Lemma generateEmbedding_trace this text (s : State W) o s' :
  generateEmbedding this text s = (o, s') ->
  trace s' = trace s ++ [EEmbeddingsCreate (embeddingParams text)].
Proof. intros E. run; reflexivity. Qed.

Lemma index_upsert_trace this index records (s : State W) o s' :
  index_upsert this index records s = (o, s') ->
  trace s' = trace s ++ [EUpsert (index_name index) records].
Proof. intros E. run; reflexivity. Qed.

Lemma index_query_trace this index options (s : State W) o s' :
  index_query this index options s = (o, s') ->
  trace s' = trace s ++ [EQuery (index_name index) options].
Proof. intros E. run; reflexivity. Qed.

Lemma upserted_app t1 t2 : upserted (t1 ++ t2) = upserted t1 ++ upserted t2.
Proof. unfold upserted. apply bind_app. Qed.

Lemma upserted_ensure te : ensure_trace te -> upserted te = [].
Proof. intros [->| ->]; reflexivity. Qed.

Lemma indexDocument_ok this d (s : State W) s' :
  indexDocument this d s = (Ok tt, s') ->
  exists te values,
    ensure_trace te /\
    trace s' = trace s ++ te ++ [EEmbeddingsCreate (embeddingParams (content d));
                                 EUpsert indexName [documentRecord d values]].
Proof.
  unfold indexDocument. intros E.
  apply bind_inv_ok in E as (index & s1 & E1 & E).
  apply bind_inv_ok in E as (values & s2 & E2 & E3).
  pose proof (getIndex_handle _ _ _ _ E1) as ->.
  apply getIndex_trace in E1 as (te & Hte & T1).
  apply generateEmbedding_trace in E2 as T2.
  apply index_upsert_trace in E3 as T3.
  exists te, values. split; [exact Hte|].
  rewrite T3, T2, T1, <- !app_assoc. reflexivity.
Qed.


Lemma indexRecipe_ok database d (s : State W) s' :
  indexRecipe database d s = (Ok tt, s') ->
  exists t, document_trace d t /\ trace s' = trace s ++ t.
Proof.
  unfold indexRecipe. intros E.
  apply bind_inv_ok in E as ([] & s1 & E1 & E2).
  apply indexDocument_ok in E2 as (te & values & Hte & T).
  injection E1 as <-. simpl in T.
  eexists. split; [exists te, values; split; [exact Hte|reflexivity]|].
  rewrite T, <- !app_assoc. reflexivity.
Qed.


Lemma loop_ok database recipes (s : State W) s' :
  for_of recipes (indexRecipe database) s = (Ok tt, s') ->
  exists chunks,
    Forall2 document_trace recipes chunks /\ trace s' = trace s ++ concat chunks.
Proof.
  revert s. induction recipes as [|d recipes IH]; simpl; intros s E.
  - injection E as <-. exists []. split; [constructor|now rewrite app_nil_r].
  - apply bind_inv_ok in E as ([] & s1 & E1 & E2).
    apply indexRecipe_ok in E1 as (t & Ht & T1).
    apply IH in E2 as (chunks & Hc & T2).
    exists (t :: chunks). split; [now constructor|].
    rewrite T2, T1, <- app_assoc. reflexivity.
Qed.



Lemma search_ok database (s : State W) s' :
  (searchResults <- semanticSearch database (js "recipes with ice cream") None ;;
   emit (EConsoleTable searchResults)) s = (Ok tt, s') ->
  exists t, search_trace t /\ trace s' = trace s ++ t.
Proof.
  intros E. apply bind_inv_ok in E as (rows & s1 & E1 & E2).
  apply semanticSearch_inv in E1 as (response & Q & _).
  unfold semanticSearch_query in Q.
  apply bind_inv_ok in Q as (values & s2 & Q1 & Q).
  apply bind_inv_ok in Q as (index & s3 & Q2 & Q3).
  pose proof (getIndex_handle _ _ _ _ Q2) as ->.
  apply generateEmbedding_trace in Q1 as T1.
  apply getIndex_trace in Q2 as (te & Hte & T2).
  apply index_query_trace in Q3 as T3.
  injection E2 as <-. simpl.
  eexists. split; [exists te, values, rows; split; [exact Hte|reflexivity]|].
  rewrite T3, T2, T1, <- !app_assoc. reflexivity.
Qed.

End Script.

Section Process.
Context {W : Type} `{!Remote W} `{!NumberFormat}.

(** C1, as the code has it: a key that is absent or empty makes the module
    throw the error naming that key (the Pinecone key is checked first),
    with the state of the services and the trace untouched, so before any
    call; the two errors differ; when both keys are present and non-empty
    no configuration error is thrown and the script runs with them. *)
Theorem missing_key_fails_before_any_call env recipes (s : State W) :
  ((env !! js "PINECONE_API_KEY" = None \/ env !! js "PINECONE_API_KEY" = Some []) ->
   main env recipes s = (Throw (Error (js "Pinecone API key is required")), s)) /\
  ((exists c cs, env !! js "PINECONE_API_KEY" = Some (c :: cs)) ->
   (env !! js "OPEN_AI_API_KEY" = None \/ env !! js "OPEN_AI_API_KEY" = Some []) ->
   main env recipes s = (Throw (Error (js "OpenAI API key is required")), s)) /\
  (forall pk ok,
     env !! js "PINECONE_API_KEY" = Some pk -> pk <> [] ->
     env !! js "OPEN_AI_API_KEY" = Some ok -> ok <> [] ->
     loadConfig env = Ok (pk, ok) /\
     main env recipes s = script (new_VectorDatabase pk ok) recipes s) /\
  Error (js "Pinecone API key is required") <> Error (js "OpenAI API key is required").
Proof.
  unfold main, loadConfig. split; [|split; [|split]].
  - intros [-> | ->]; reflexivity.
  - intros (c & cs & ->) [-> | ->]; reflexivity.
  - intros pk ok Epk Npk Eok Nok. rewrite Epk, Eok.
    destruct pk as [|c cs]; [congruence|]. destruct ok as [|c' cs']; [congruence|].
    split; reflexivity.
  - discriminate.
Qed.


Lemma getIndex_ok_step this (s : State W) index s' :
  getIndex this s = (Ok index, s') ->
  index = {| index_name := js "recipes" |} /\ ensure_step this s s'.
Proof.
  intros E. split; [now apply getIndex_handle in E|].
  unfold ensure_step, listed.
  unfold getIndex, indexExists, call, bind, emit, await, ret in E. simpl in E.
  destruct (listIndexes (pinecone_apiKey (pinecone this)) (world s))
    as [[l|e] w1]; [|discriminate].
  exists l, w1. split; [reflexivity|].
  destruct (indexes l) as [idx|]; simpl in E.
  - destruct (existsb _ idx); simpl in E.
    + now injection E as _ <-.
    + destruct (createIndex _ _ w1) as [[[]|e] w2]; [|discriminate].
      injection E as _ <-. exists w2. split; [reflexivity|].
      now rewrite <- app_assoc.
  - destruct (createIndex _ _ w1) as [[[]|e] w2]; [|discriminate].
    injection E as _ <-. exists w2. split; [reflexivity|].
    now rewrite <- app_assoc.
Qed.

Lemma generateEmbedding_ok_step this text (s : State W) values s' :
  generateEmbedding this text s = (Ok values, s') ->
  embed_step this text values s s'.
Proof.
  intros E. unfold embed_step.
  unfold generateEmbedding, call, bind, emit, await, ret, throw in E. simpl in E.
  destruct (embeddings_create _ _ (world s)) as [[response|e] w1]; [|discriminate].
  destruct (data response) as [|first rest] eqn:D; [discriminate|].
  injection E as <- <-. exists response, w1, first. rewrite D. repeat split.
Qed.

Lemma indexRecipe_ok_step database d (s s' : State W) :
  indexRecipe database d s = (Ok tt, s') -> document_step database d s s'.
Proof.
  unfold indexRecipe, indexDocument. intros E.
  apply bind_inv_ok in E as ([] & s0 & E0 & E).
  apply bind_inv_ok in E as (index & s1 & E1 & E).
  apply bind_inv_ok in E as (values & s2 & E2 & E3).
  injection E0 as <-.
  apply getIndex_ok_step in E1 as [-> S1].
  apply generateEmbedding_ok_step in E2.
  unfold index_upsert, call, bind, emit, await in E3. simpl in E3.
  destruct (upsert _ _ _ (world s2)) as [[[]|e] w3] eqn:U; [|discriminate].
  injection E3 as <-.
  exists s1, values, s2, w3. repeat split; [exact S1|exact E2|exact U].
Qed.

Lemma loop_ok_steps database recipes (s s' : State W) :
  for_of recipes (indexRecipe database) s = (Ok tt, s') ->
  loop_steps database recipes s s'.
Proof.
  revert s. induction recipes as [|d recipes IH]; simpl; intros s E.
  - now injection E as <-.
  - apply bind_inv_ok in E as ([] & s1 & E1 & E2).
    exists s1. split; [now apply indexRecipe_ok_step|now apply IH].
Qed.

Lemma search_ok_step database (s s' : State W) :
  (searchResults <- semanticSearch database (js "recipes with ice cream") None ;;
   emit (EConsoleTable searchResults)) s = (Ok tt, s') ->
  search_step database s s'.
Proof.
  intros E. apply bind_inv_ok in E as (rows & s3 & E1 & E2).
  apply semanticSearch_inv in E1 as (response & Q & A).
  unfold semanticSearch_query in Q.
  apply bind_inv_ok in Q as (values & s1 & Q1 & Q).
  apply bind_inv_ok in Q as (index & s2 & Q2 & Q3).
  apply generateEmbedding_ok_step in Q1.
  apply getIndex_ok_step in Q2 as [-> S2].
  unfold index_query, call, bind, emit, await in Q3. simpl in Q3.
  destruct (query _ _ _ (world s2)) as [[response'|e] w3] eqn:U; [|discriminate].
  injection Q3 as -> <-. injection E2 as <-. simpl.
  exists values, s1, s2, response, w3, rows.
  repeat split; [exact Q1|exact S2|exact U|exact A|].
  now rewrite <- app_assoc.
Qed.

(** C5, as the code has it: a run that completes has loaded both keys and
    then made these steps and no others, in this order: for each document in
    corpus order, the progress notice, the ensuring of the index (a listing,
    followed by a creation exactly when the listing did not name the index),
    the embedding of the content and the upsert; then the embedding of the
    fixed query, the ensuring of the index once more, the query with [topK]
    3 and the printing of the rows.  Each call is made in the state of the
    services the previous one left. *)
Theorem main_trace_shape env recipes (w : W) s' :
  main env recipes (init w) = (Ok tt, s') ->
  exists pk ok s1,
    loadConfig env = Ok (pk, ok) /\
    loop_steps (new_VectorDatabase pk ok) recipes (init w) s1 /\
    search_step (new_VectorDatabase pk ok) s1 s'.
Proof.
  unfold main. destruct (loadConfig env) as [[pk ok]|e]; [|discriminate].
  intros E. unfold script in E.
  apply bind_inv_ok in E as ([] & s1 & E1 & E2).
  exists pk, ok, s1. split; [reflexivity|]. split.
  - now apply loop_ok_steps.
  - now apply search_ok_step.
Qed.

End Process.

(** * The test double honours the contracts, and the statements on examples *)

Lemma sim_created_is_listed : created_is_listed (W:=SimWorld).
Proof.
  intros key options w w' l w'' C L. simpl in C, L.
  assert (I : sim_has_index (ci_name options) w' = true).
  { unfold sim_spend, sim_createIndex in C.
    destruct (sim_quota w) as [[|n]|];
      try discriminate;
      match type of C with
      | context [sim_has_index ?a ?b] => destruct (sim_has_index a b)
      end; try discriminate;
      injection C as <-; unfold sim_has_index; simpl;
      rewrite existsb_app; simpl; unfold eqb_jsstring;
      rewrite bool_decide_eq_true_2 by reflexivity;
      now rewrite orb_true_r. }
  unfold sim_spend in L.
  destruct (sim_quota w') as [[|n]|]; try discriminate;
    injection L as <- <-; exact I.
Qed.

Lemma sample_matches_descending : descending (match_score <$> sample_matches).
Proof.
  intros [|[|[|i]]] a b Ha Hb; simpl in Ha, Hb; try discriminate;
    injection Ha as <-; injection Hb as <-; reflexivity.
Qed.

Lemma sample_query_runs :
  semanticSearch_query sample_database (js "recipes with ice cream") None
    (init search_world) = (Ok sample_response, sample_search_state).
Proof. vm_compute. reflexivity. Qed.

Lemma sample_search_runs :
  semanticSearch sample_database (js "recipes with ice cream") None
    (init search_world) = (Ok sample_results, sample_search_state).
Proof. vm_compute. reflexivity. Qed.

(** C1 fails as stated: with both keys present and the Pinecone key empty,
    the module throws the configuration error. *)
Lemma present_but_empty_key_is_rejected :
  is_Some (empty_key_env !! js "PINECONE_API_KEY") /\
  is_Some (empty_key_env !! js "OPEN_AI_API_KEY") /\
  main empty_key_env sample_recipes (init fresh_world) =
    (Throw (Error (js "Pinecone API key is required")), init fresh_world).
Proof.
  split; [|split].
  - exists []. reflexivity.
  - exists (js "sk-key"). vm_compute. reflexivity.
  - vm_compute. reflexivity.
Qed.

Lemma missing_key_fails_before_any_call_witness :
  main ∅ sample_recipes (init fresh_world) =
    (Throw (Error (js "Pinecone API key is required")), init fresh_world) /\
  main (<[js "PINECONE_API_KEY" := js "pc-key"]> ∅) sample_recipes (init fresh_world) =
    (Throw (Error (js "OpenAI API key is required")), init fresh_world) /\
  loadConfig sample_env = Ok (js "pc-key", js "sk-key").
Proof.
  split; [|split].
  - apply (proj1 (missing_key_fails_before_any_call ∅ sample_recipes (init fresh_world))).
    left. reflexivity.
  - apply (proj1 (proj2 (missing_key_fails_before_any_call
                           (<[js "PINECONE_API_KEY" := js "pc-key"]> ∅)
                           sample_recipes (init fresh_world)))).
    + eexists _, _. vm_compute. reflexivity.
    + left. vm_compute. reflexivity.
  - apply (proj1 (proj2 (proj2 (missing_key_fails_before_any_call
                                  sample_env sample_recipes (init fresh_world))))
             (js "pc-key") (js "sk-key")).
    + vm_compute. reflexivity.
    + discriminate.
    + vm_compute. reflexivity.
    + discriminate.
Defined.

Lemma getIndex_twice_creates_once_witness :
  exists s1 s2,
    getIndex sample_database (init fresh_world) = (Ok {| index_name := js "recipes" |}, s1) /\
    getIndex sample_database s1 = (Ok {| index_name := js "recipes" |}, s2) /\
    trace s1 = trace (init fresh_world) ++ [EListIndexes; ECreateIndex createIndexOptions] /\
    trace s2 = trace s1 ++ [EListIndexes] /\
    count_events is_createIndex (trace s2) =
      count_events is_createIndex (trace (init fresh_world)) + 1 /\
    world s2 = {| sim_indexes := [{| name := js "recipes" |}]; sim_records := ∅;
                  sim_matches := []; sim_quota := None |}.
Proof.
  apply (getIndex_twice_creates_once sample_database (init fresh_world)
           {| indexes := Some [] |} fresh_world
           {| sim_indexes := [{| name := js "recipes" |}]; sim_records := ∅;
              sim_matches := []; sim_quota := None |}
           {| indexes := Some [{| name := js "recipes" |}] |}
           {| sim_indexes := [{| name := js "recipes" |}]; sim_records := ∅;
              sim_matches := []; sim_quota := None |}).
  - exact sim_created_is_listed.
  - reflexivity.
  - reflexivity.
  - reflexivity.
  - reflexivity.
Defined.

(** C7 fails as stated: the service answers with a first vector of two
    components, and that is what [generateEmbedding] returns. *)
Lemma generateEmbedding_returns_short_vector :
  generateEmbedding sample_database (js "recipes with ice cream")
    (init two_vector_service) =
    (Ok [0.5%float; 0.25%float],
     {| world := two_vector_service;
        trace := [EEmbeddingsCreate (embeddingParams (js "recipes with ice cream"))] |}) /\
  length [0.5%float; 0.25%float] <> 1536.
Proof. split; [vm_compute; reflexivity|]. simpl. lia. Qed.

Lemma generateEmbedding_returns_first_witness :
  generateEmbedding sample_database (js "soup") (init two_vector_service) =
    (Ok (embedding {| embedding := [0.5%float; 0.25%float] |}),
     {| world := two_vector_service;
        trace := trace (init two_vector_service)
                   ++ [EEmbeddingsCreate (embeddingParams (js "soup"))] |}) /\
  forall values s',
    generateEmbedding sample_database (js "soup") (init two_vector_service)
      = (Ok values, s') ->
    values = embedding {| embedding := [0.5%float; 0.25%float] |} /\
    (length values = 1536 <->
     length (embedding {| embedding := [0.5%float; 0.25%float] |}) = 1536).
Proof.
  apply (generateEmbedding_returns_first sample_database (js "soup")
           (init two_vector_service)
           {| data := [{| embedding := [0.5%float; 0.25%float] |};
                       {| embedding := [1%float] |}] |}
           two_vector_service
           {| embedding := [0.5%float; 0.25%float] |}
           [{| embedding := [1%float] |}]).
  - reflexivity.
  - reflexivity.
Defined.

Lemma content_never_exceeds_50_plus_ellipsis_witness :
  (Forall (fun r => length (sr_content r) <= 50 + length ellipsis) sample_results /\
   Forall2 (fun m r =>
              forall stored,
                stored_content m = Some stored -> length stored = 500 ->
                sr_content r = take 50 stored ++ ellipsis /\
                length (take 50 stored) = 50)
           (matches sample_response) sample_results) /\
  stored_content <$> sample_matches =
    [Some (replicate 500 97%N); Some (js "Simmer."); None] /\
  sr_content <$> sample_results =
    [replicate 50 97%N ++ ellipsis; js "Simmer." ++ ellipsis; js "undefined" ++ ellipsis].
Proof.
  split; [|split].
  - apply (content_never_exceeds_50_plus_ellipsis sample_database
             (js "recipes with ice cream") None (init search_world)
             sample_response sample_results sample_search_state).
    + vm_compute. reflexivity.
    + vm_compute. reflexivity.
  - vm_compute. reflexivity.
  - vm_compute. reflexivity.
Defined.

Lemma semanticSearch_preserves_order_witness :
  sr_id <$> sample_results = [js "1"; js "2"; js "3"] /\
  sr_score <$> sample_results = [Some 0.75%float; Some 0.5%float; Some 0.25%float] /\
  descending (sr_score <$> sample_results).
Proof.
  destruct (semanticSearch_preserves_order sample_database
              (js "recipes with ice cream") None (init search_world)
              sample_response sample_results sample_search_state)
    as (I & S & D).
  - vm_compute. reflexivity.
  - vm_compute. reflexivity.
  - split; [exact I|]. split; [exact S|]. apply D. exact sample_matches_descending.
Defined.

(** C9 fails as stated: a stored content of 50 code units followed by the
    marker comes back as it is. *)
Lemma marked_content_comes_back_untouched :
  stored_content marked_match = Some marked_content /\
  (semanticSearch sample_database (js "recipes with ice cream") None
     (init marked_world)).1 =
    Ok [{| sr_id := js "7"; sr_title := None;
           sr_content := marked_content; sr_score := Some 0.5%float |}].
Proof. split; vm_compute; reflexivity. Qed.

Lemma ellipsis_appended_unconditionally_witness :
  (Forall (fun r => exists shown, sr_content r = shown ++ ellipsis) sample_results /\
   Forall2 (fun m r =>
              forall stored,
                stored_content m = Some stored ->
                sr_content r = take 50 stored ++ ellipsis /\
                (length stored <= 50 ->
                 sr_content r = stored ++ ellipsis /\ sr_content r <> stored) /\
                (sr_content r = stored <->
                 length stored = 50 + length ellipsis /\ drop 50 stored = ellipsis))
           (matches sample_response) sample_results) /\
  sr_content <$> sample_results =
    [replicate 50 97%N ++ ellipsis; js "Simmer." ++ ellipsis; js "undefined" ++ ellipsis].
Proof.
  split.
  - apply (ellipsis_appended_unconditionally sample_database
             (js "recipes with ice cream") None (init search_world)
             sample_response sample_results sample_search_state).
    + vm_compute. reflexivity.
    + vm_compute. reflexivity.
  - vm_compute. reflexivity.
Defined.

Lemma missing_metadata_gives_undefined_witness :
  exists results,
    semanticSearch sample_database (js "recipes with ice cream") None
      (init search_world) = (Ok results, sample_search_state) /\
    Forall2 (fun m r =>
               match_metadata m = None ->
               sr_title r = None /\ sr_content r = js "undefined" ++ ellipsis)
            (matches sample_response) results.
Proof.
  apply (missing_metadata_gives_undefined sample_database
           (js "recipes with ice cream") None (init search_world)
           sample_response sample_search_state).
  - vm_compute. reflexivity.
  - constructor; [right; eexists; vm_compute; reflexivity|].
    constructor; [right; eexists; vm_compute; reflexivity|].
    constructor; [left; reflexivity|constructor].
Defined.


(** C5 fails as stated: on three recipes the script lists the indexes four
    times, once per document and once more for the search, where the flow
    of the claim does it once, and the two runs make different calls. *)
Lemma ensure_index_runs_for_every_document :
  sample_run.1 = Ok tt /\
  sample_linear_run.1 = Ok tt /\
  count_events is_listIndexes (trace sample_run.2) = 4 /\
  count_events is_listIndexes (trace sample_linear_run.2) = 1 /\
  network_calls (trace sample_run.2) <> network_calls (trace sample_linear_run.2).
Proof.
  split; [vm_compute; reflexivity|].
  split; [vm_compute; reflexivity|].
  split; [vm_compute; reflexivity|].
  split; [vm_compute; reflexivity|].
  intros E. apply (f_equal length) in E. vm_compute in E. discriminate.
Qed.

Lemma main_trace_shape_witness :
  exists pk ok s1,
    loadConfig sample_env = Ok (pk, ok) /\
    loop_steps (new_VectorDatabase pk ok) sample_recipes (init fresh_world) s1 /\
    search_step (new_VectorDatabase pk ok) s1 sample_run.2.
Proof.
  apply (main_trace_shape sample_env sample_recipes fresh_world sample_run.2).
  vm_compute. reflexivity.
Defined.


(** * Further properties of the operations *)

Section Edges.
Context {W : Type} `{!Remote W} `{!NumberFormat}.

Local Ltac unfold_calls :=
  unfold getIndex, indexExists, generateEmbedding, index_upsert, index_query,
    call, bind, emit, await, ret, throw, lift in *;
  simpl in *.

Lemma loadConfig_keys_come_from_env env pk ok :
  loadConfig env = Ok (pk, ok) ->
  env !! js "PINECONE_API_KEY" = Some pk /\ pk <> [] /\
  env !! js "OPEN_AI_API_KEY" = Some ok /\ ok <> [].
Proof.
  unfold loadConfig.
  destruct (env !! js "PINECONE_API_KEY") as [[|c cs]|]; simpl; try discriminate.
  destruct (env !! js "OPEN_AI_API_KEY") as [[|c' cs']|]; simpl; try discriminate.
  intros [= <- <-]. repeat split; discriminate.
Qed.

Lemma count_events_snoc p (t : list Event) e :
  count_events p (t ++ [e]) = count_events p t + (if p e then 1 else 0).
Proof.
  unfold count_events. rewrite filter_app, length_app. f_equal.
  destruct (p e) eqn:E.
  - rewrite filter_cons_True by exact E. reflexivity.
  - rewrite filter_cons_False by (rewrite E; discriminate). reflexivity.
Qed.

(** X2: once the listing is answered, [getIndex] calls [createIndex] exactly
    when the answer does not name the index, which includes an answer
    without an [indexes] field; this holds whether or not the creation then
    succeeds. *)
Theorem getIndex_creates_exactly_when_not_listed this (s : State W) l w1 o s' :
  listIndexes (pinecone_apiKey (pinecone this)) (world s) = (Ok l, w1) ->
  getIndex this s = (o, s') ->
  count_events is_createIndex (trace s') =
    count_events is_createIndex (trace s) + (if listed l then 0 else 1).
Proof.
  intros L E. unfold listed. unfold_calls. rewrite L in E.
  destruct (indexes l) as [idx|]; simpl in E.
  - destruct (existsb _ idx); simpl in E.
    + injection E as <- <-. simpl. rewrite count_events_snoc. reflexivity.
    + destruct (createIndex _ _ w1) as [[[]|e] w2]; injection E as <- <-;
        simpl; rewrite !count_events_snoc; simpl; lia.
  - destruct (createIndex _ _ w1) as [[[]|e] w2]; injection E as <- <-;
      simpl; rewrite !count_events_snoc; simpl; lia.
Qed.

(** X3: [getIndex] throws nothing of its own: an error it throws is the one
    the listing was refused with, or, the index not being listed, the one
    the creation was refused with. *)
Theorem getIndex_throws_only_service_errors this (s : State W) e s' :
  getIndex this s = (Throw e, s') ->
  listIndexes (pinecone_apiKey (pinecone this)) (world s) = (Throw e, world s') \/
  exists l w1,
    listIndexes (pinecone_apiKey (pinecone this)) (world s) = (Ok l, w1) /\
    listed l = false /\
    createIndex (pinecone_apiKey (pinecone this)) createIndexOptions w1
      = (Throw e, world s').
Proof.
  intros E. unfold listed. unfold_calls.
  destruct (listIndexes _ (world s)) as [[l|e0] w1] eqn:L.
  - right. exists l, w1. split; [reflexivity|].
    destruct (indexes l) as [idx|]; simpl in E.
    + destruct (existsb _ idx); simpl in E; [discriminate|].
      destruct (createIndex _ _ w1) as [[[]|e1] w2]; [discriminate|].
      injection E as <- <-. split; reflexivity.
    + destruct (createIndex _ _ w1) as [[[]|e1] w2]; [discriminate|].
      injection E as <- <-. split; reflexivity.
  - left. injection E as <- <-. reflexivity.
Qed.

(** X4: when [generateEmbedding] throws it has made its one call, and the
    error is either the one the embedding service refused with, or a
    [TypeError] because the answer held no embedding at all. *)
Theorem generateEmbedding_failure this text (s : State W) e s' :
  generateEmbedding this text s = (Throw e, s') ->
  trace s' = trace s ++ [EEmbeddingsCreate (embeddingParams text)] /\
  (embeddings_create (openai_apiKey (openai this)) (embeddingParams text) (world s)
     = (Throw e, world s') \/
   (e = TypeError /\
    exists response,
      embeddings_create (openai_apiKey (openai this)) (embeddingParams text) (world s)
        = (Ok response, world s') /\
      data response = [])).
Proof.
  intros E. unfold_calls.
  destruct (embeddings_create _ _ (world s)) as [[response|e0] w1].
  - destruct (data response) as [|first rest] eqn:D; [|discriminate].
    injection E as <- <-. split; [reflexivity|]. right. split; [reflexivity|].
    exists response. split; [reflexivity|exact D].
  - injection E as <- <-. split; [reflexivity|]. left. reflexivity.
Qed.

(** X5: a successful [indexDocument] has obtained the handle, asked the
    embedding service about the document's content, and sent one upsert to
    the index [recipes] holding one record: the document's id, the first
    vector of the service's answer, and the title and content as metadata. *)
Theorem indexDocument_upserts_service_vector this d (s s' : State W) :
  indexDocument this d s = (Ok tt, s') ->
  exists s1 response w2 first,
    getIndex this s = (Ok {| index_name := js "recipes" |}, s1) /\
    embeddings_create (openai_apiKey (openai this)) (embeddingParams (content d))
      (world s1) = (Ok response, w2) /\
    head (data response) = Some first /\
    upsert (pinecone_apiKey (pinecone this)) (js "recipes")
      [documentRecord d (embedding first)] w2 = (Ok tt, world s') /\
    trace s' = trace s1 ++ [EEmbeddingsCreate (embeddingParams (content d));
                            EUpsert (js "recipes") [documentRecord d (embedding first)]].
Proof.
  unfold indexDocument. intros E.
  apply bind_inv_ok in E as (index & s1 & E1 & E).
  apply bind_inv_ok in E as (values & s2 & E2 & E3).
  pose proof (getIndex_handle _ _ _ _ E1) as ->.
  exists s1. unfold_calls.
  destruct (embeddings_create _ _ (world s1)) as [[response|e0] w2]; [|discriminate].
  destruct (data response) as [|first rest] eqn:D; [discriminate|].
  injection E2 as <- <-. simpl in E3.
  destruct (upsert _ _ _ w2) as [[[]|e1] w3] eqn:U; [|discriminate].
  injection E3 as <-. simpl.
  exists response, w2, first. rewrite D.
  repeat split; [exact E1|exact U|]. now rewrite <- app_assoc.
Qed.

(** X6: [indexDocument] sends its upsert last: however it ends, either no
    upsert was attempted, or the handle and the embedding had both been
    obtained and the one upsert attempted carries the document's id. *)
Theorem indexDocument_upserts_last this d (s : State W) o s' :
  indexDocument this d s = (o, s') ->
  upserted (trace s') = upserted (trace s) \/
  exists index s1 values s2,
    getIndex this s = (Ok index, s1) /\
    generateEmbedding this (content d) s1 = (Ok values, s2) /\
    upserted (trace s') = upserted (trace s) ++ [id d].
Proof.
  unfold indexDocument. intros E. unfold bind at 1 in E.
  destruct (getIndex this s) as [[index|e1] s1] eqn:E1.
  - apply getIndex_trace in E1 as T1. destruct T1 as (te & Hte & T1).
    unfold bind at 1 in E.
    destruct (generateEmbedding this (content d) s1) as [[values|e2] s2] eqn:E2;
      apply generateEmbedding_trace in E2 as T2.
    + right. exists index, s1, values, s2. split; [reflexivity|]. split; [exact E2|].
      apply index_upsert_trace in E as T3.
      rewrite T3, T2, T1, !upserted_app, (upserted_ensure _ Hte). simpl.
      now rewrite !app_nil_r.
    + left. injection E as <- <-.
      rewrite T2, T1, !upserted_app, (upserted_ensure _ Hte). simpl.
      now rewrite !app_nil_r.
  - left. injection E as <- <-.
    apply getIndex_trace in E1 as (te & Hte & T1).
    rewrite T1, upserted_app, (upserted_ensure _ Hte). now rewrite app_nil_r.
Qed.

End Edges.

Section SearchEdges.
Context {W : Type} `{!Remote W} `{!NumberFormat}.

(** X7: a [semanticSearch] whose query was answered embedded the query text
    first and then asked the index [recipes] for that very vector, with the
    [topK] it was given, or 3 when it was given none, and with the metadata
    included; the query is the last call made. *)
Theorem semanticSearch_query_options this text k (s : State W) response s' :
  semanticSearch_query this text k s = (Ok response, s') ->
  exists values s1,
    generateEmbedding this text s = (Ok values, s1) /\
    last (trace s') =
      Some (EQuery (js "recipes")
              {| vector := values; topK := default 3%Z k; includeMetadata := true |}).
Proof.
  unfold semanticSearch_query. intros Q.
  apply bind_inv_ok in Q as (values & s1 & Q1 & Q).
  apply bind_inv_ok in Q as (index & s2 & Q2 & Q3).
  pose proof (getIndex_handle _ _ _ _ Q2) as ->.
  apply index_query_trace in Q3 as T3.
  exists values, s1. split; [exact Q1|].
  rewrite T3. apply last_snoc.
Qed.

Lemma semanticSearch_row_throws m e :
  semanticSearch_row m = Throw e -> e = TypeError.
Proof.
  unfold semanticSearch_row.
  destruct (match_metadata m) as [metadata|]; [|discriminate].
  destruct (metadata !! js "content"); [discriminate|].
  now intros [= <-].
Qed.

Lemma semanticSearch_row_contentless m metadata :
  match_metadata m = Some metadata -> metadata !! js "content" = None ->
  semanticSearch_row m = Throw TypeError.
Proof. unfold semanticSearch_row. intros -> ->. reflexivity. Qed.

Lemma array_map_rows_throw ms :
  Exists (fun m => semanticSearch_row m = Throw TypeError) ms ->
  array_map semanticSearch_row ms = Throw TypeError.
Proof.
  induction 1 as [m ms Hm|m ms _ IH]; simpl.
  - now rewrite Hm.
  - destruct (semanticSearch_row m) as [r|e] eqn:Em.
    + now rewrite IH.
    + now rewrite (semanticSearch_row_throws _ _ Em).
Qed.

(** X8: a match that has metadata but no [content] entry in it makes
    [semanticSearch] throw a [TypeError] after the query was answered: no
    rows are returned, not even those of the other matches. *)
Theorem semanticSearch_throws_on_metadata_without_content
    this text k (s : State W) response s' :
  semanticSearch_query this text k s = (Ok response, s') ->
  Exists (fun m => exists metadata,
            match_metadata m = Some metadata /\ metadata !! js "content" = None)
         (matches response) ->
  semanticSearch this text k s = (Throw TypeError, s').
Proof.
  intros Q B. unfold semanticSearch. rewrite (bind_ok _ _ _ _ _ Q). unfold lift.
  rewrite array_map_rows_throw; [reflexivity|].
  eapply Exists_impl; [exact B|].
  intros m (metadata & Hm & Hc). now apply (semanticSearch_row_contentless m metadata).
Qed.

Lemma semanticSearch_row_title m r :
  semanticSearch_row m = Ok r ->
  sr_title r = match match_metadata m with
               | None => None
               | Some metadata => metadata !! js "title"
               end.
Proof.
  unfold semanticSearch_row.
  destruct (match_metadata m) as [metadata|].
  - destruct (metadata !! js "content"); [|discriminate]. now intros [= <-].
  - now intros [= <-].
Qed.

(** X9: [semanticSearch] returns exactly one row per match of the answer,
    and a row's title is the [title] entry of the match's metadata as it
    is, whatever its type or length, or undefined when there is none. *)
Theorem semanticSearch_one_row_per_match
    this text k (s : State W) response results s' :
  semanticSearch_query this text k s = (Ok response, s') ->
  semanticSearch this text k s = (Ok results, s') ->
  length results = length (matches response) /\
  Forall2 (fun m r =>
             sr_title r = match match_metadata m with
                          | None => None
                          | Some metadata => metadata !! js "title"
                          end)
          (matches response) results.
Proof.
  intros Q E. pose proof (semanticSearch_rows _ _ _ _ _ _ _ Q E) as R.
  split.
  - symmetry. eapply Forall2_length. exact R.
  - eapply Forall2_impl; [exact R|]. intros m r Hr.
    now apply semanticSearch_row_title.
Qed.

(** X10: [semanticSearch] embeds the query before it touches the vector
    database: when the embedding fails, the search fails with the same
    error and the embedding call is the only call it has made. *)
Theorem semanticSearch_embedding_failure_skips_database
    this text k (s : State W) e s1 :
  generateEmbedding this text s = (Throw e, s1) ->
  semanticSearch this text k s = (Throw e, s1) /\
  trace s1 = trace s ++ [EEmbeddingsCreate (embeddingParams text)].
Proof.
  intros G. split.
  - unfold semanticSearch, semanticSearch_query.
    apply bind_throw. now apply bind_throw.
  - now apply generateEmbedding_trace in G.
Qed.

(** X15: truncation counts UTF-16 code units, so a character stored as a
    surrogate pair at positions 49 and 50 is cut in two: the row's content
    keeps the high surrogate at position 49 and the marker follows it
    directly, the low surrogate being dropped. *)
Theorem truncation_cuts_surrogate_pair m r stored hi lo :
  semanticSearch_row m = Ok r ->
  stored_content m = Some stored ->
  stored !! 49 = Some hi -> is_high_surrogate hi = true ->
  stored !! 50 = Some lo -> is_low_surrogate lo = true ->
  sr_content r !! 49 = Some hi /\
  drop 50 (sr_content r) = ellipsis /\
  Forall (fun c => is_low_surrogate c = false) (drop 50 (sr_content r)).
Proof.
  intros Hr St H49 _ H50 _.
  rewrite (semanticSearch_row_stored m stored St) in Hr. injection Hr as <-. simpl.
  assert (L : 50 < length stored) by (apply lookup_lt_Some in H50; exact H50).
  assert (LT : length (take 50 stored) = 50) by (rewrite length_take; lia).
  split; [|split].
  - rewrite lookup_app_l by lia. rewrite lookup_take_lt by lia. exact H49.
  - rewrite drop_app_length'; [reflexivity|now symmetry].
  - rewrite drop_app_length'; [|now symmetry]. repeat constructor.
Qed.

End SearchEdges.

(** * Further properties of whole runs *)

Section Runs.
Context {W : Type} `{!Remote W} `{!NumberFormat}.

Lemma keeps_bind_returns {A B : Type} P (Q : A -> Prop) (m : M W A) (k : A -> M W B) :
  keeps P m -> returns Q m -> (forall a, Q a -> keeps P (k a)) -> keeps P (bind m k).
Proof.
  intros Hm Hr Hk s Hs. unfold bind. specialize (Hm s Hs). specialize (Hr s).
  destruct (m s) as [[a|e] s1]; simpl in *.
  - apply (Hk a); [now apply (Hr a s1)|exact Hm].
  - exact Hm.
Qed.

Lemma keeps_for_of_in {A : Type} P (xs : list A) (body : A -> M W unit) :
  (forall x, x ∈ xs -> keeps P (body x)) -> keeps P (for_of xs body).
Proof.
  induction xs as [|x xs IH]; simpl; intros Hb.
  - apply keeps_ret.
  - apply keeps_bind.
    + apply Hb. now left.
    + intros _. apply IH. intros y Hy. apply Hb. now right.
Qed.

Lemma returns_getIndex this :
  returns (W:=W) (fun index => index = {| index_name := indexName |}) (getIndex this).
Proof. intros s index s' E. now apply getIndex_handle in E. Qed.

Lemma keeps_getIndex_any P this :
  P EListIndexes -> P (ECreateIndex createIndexOptions) ->
  keeps (W:=W) P (getIndex this).
Proof.
  intros Pl Pc. unfold getIndex, indexExists.
  apply keeps_bind.
  - apply keeps_bind; [now apply keeps_call|].
    intros r. destruct (indexes r); apply keeps_ret.
  - intros [|]; [apply keeps_ret|].
    apply keeps_bind; [now apply keeps_call|intros _; apply keeps_ret].
Qed.

Lemma keeps_generateEmbedding_any P this text :
  P (EEmbeddingsCreate (embeddingParams text)) ->
  keeps (W:=W) P (generateEmbedding this text).
Proof.
  intros Pe. unfold generateEmbedding.
  apply keeps_bind; [now apply keeps_call|].
  intros r. destruct (data r); [apply keeps_throw|apply keeps_ret].
Qed.

Lemma keeps_indexDocument_any P this d :
  P EListIndexes -> P (ECreateIndex createIndexOptions) ->
  P (EEmbeddingsCreate (embeddingParams (content d))) ->
  (forall values, P (EUpsert indexName [documentRecord d values])) ->
  keeps (W:=W) P (indexDocument this d).
Proof.
  intros Pl Pc Pe Pu. unfold indexDocument, index_upsert.
  apply (keeps_bind_returns P _ _ _ (keeps_getIndex_any P this Pl Pc)
           (returns_getIndex this)).
  intros index ->.
  apply keeps_bind; [now apply keeps_generateEmbedding_any|intros values].
  apply keeps_call. apply Pu.
Qed.

Lemma keeps_semanticSearch_any P this text k :
  P EListIndexes -> P (ECreateIndex createIndexOptions) ->
  P (EEmbeddingsCreate (embeddingParams text)) ->
  (forall values,
     P (EQuery indexName
          {| vector := values; topK := default 3%Z k; includeMetadata := true |})) ->
  keeps (W:=W) P (semanticSearch this text k).
Proof.
  intros Pl Pc Pe Pq. unfold semanticSearch, semanticSearch_query, index_query.
  apply keeps_bind; [|intros; apply keeps_lift].
  apply keeps_bind; [now apply keeps_generateEmbedding_any|intros values].
  apply (keeps_bind_returns P _ _ _ (keeps_getIndex_any P this Pl Pc)
           (returns_getIndex this)).
  intros index ->. apply keeps_call. apply Pq.
Qed.

Lemma keeps_loop_any P database recipes :
  P EListIndexes -> P (ECreateIndex createIndexOptions) ->
  (forall d, d ∈ recipes ->
     P (EConsoleLog [Blue (js "Indexing recipe:"); Plain (title d)]) /\
     P (EEmbeddingsCreate (embeddingParams (content d))) /\
     forall values, P (EUpsert indexName [documentRecord d values])) ->
  keeps (W:=W) P (for_of recipes (indexRecipe database)).
Proof.
  intros Pl Pc Pd. apply keeps_for_of_in. intros d Hd.
  destruct (Pd d Hd) as (Plog & Pe & Pu). unfold indexRecipe.
  apply keeps_bind; [now apply keeps_emit|intros _].
  now apply keeps_indexDocument_any.
Qed.

(** X13: whatever the environment, the corpus and the services do, and
    however the run ends, the script makes no call but these: listings;
    creations with the fixed options; embeddings with the model
    [text-embedding-ada-002] of a document's content or of the fixed query;
    upserts to [recipes] of a single record built from a document of the
    corpus; queries of [recipes] with [topK] 3 and metadata included. *)
Theorem run_makes_only_scripted_calls env recipes (w : W) :
  Forall (scripted recipes) (trace (main env recipes (init w)).2).
Proof.
  assert (K : keeps (W:=W) (scripted recipes) (main env recipes)).
  { unfold main. destruct (loadConfig env) as [[pk ok]|e]; [|apply keeps_throw].
    unfold script. apply keeps_bind.
    - apply keeps_loop_any; [exact I|reflexivity|].
      intros d Hd. split; [|split].
      + exists d. now split.
      + split; [reflexivity|]. right. exists d. now split.
      + intros values. split; [reflexivity|]. exists d, values. now split.
    - intros _. apply keeps_bind.
      + apply keeps_semanticSearch_any; [exact I|reflexivity| |].
        * split; [reflexivity|]. now left.
        * intros values. repeat split.
      + intros rows. apply keeps_emit. exact I. }
  apply K. constructor.
Qed.

Lemma count_events_none p (t : list Event) :
  Forall (fun e => p e = false) t -> count_events p t = 0.
Proof.
  induction 1 as [|e t He _ IH]; [reflexivity|].
  change (e :: t) with ([e] ++ t).
  rewrite count_events_app, IH. unfold count_events.
  rewrite filter_cons_False by (rewrite He; discriminate). reflexivity.
Qed.

Lemma keeps_no_table_loop database recipes :
  keeps (W:=W) (fun e => is_consoleTable e = false)
    (for_of recipes (indexRecipe database)).
Proof.
  apply keeps_loop_any; [reflexivity|reflexivity|].
  intros d _. repeat split.
Qed.

Lemma keeps_no_table_search this text k :
  keeps (W:=W) (fun e => is_consoleTable e = false) (semanticSearch this text k).
Proof. apply keeps_semanticSearch_any; reflexivity. Qed.

(** X12: the table of results is the last thing the script does: a run that
    ends with an error, whichever it is, has printed no table. *)
Theorem failed_run_prints_no_table env recipes (w : W) e s' :
  main env recipes (init w) = (Throw e, s') ->
  count_events is_consoleTable (trace s') = 0.
Proof.
  unfold main. intros E. apply count_events_none.
  destruct (loadConfig env) as [[pk ok]|e0].
  - unfold script in E. unfold bind at 1 in E.
    pose proof (keeps_no_table_loop (new_VectorDatabase pk ok) recipes (init w)) as K1.
    destruct (for_of recipes _ (init w)) as [[[]|e1] s1]; simpl in K1.
    + unfold bind at 1 in E.
      pose proof (keeps_no_table_search (new_VectorDatabase pk ok)
                    (js "recipes with ice cream") None s1) as K2.
      destruct (semanticSearch _ _ None s1) as [[rows|e2] s2]; simpl in K2.
      * discriminate.
      * injection E as <- <-. apply K2, K1. constructor.
    + injection E as <- <-. apply K1. constructor.
  - injection E as <- <-. constructor.
Qed.

End Runs.

Section Counts.
Context {W : Type} `{!Remote W} `{!NumberFormat}.

Lemma count_events_chunks p n recipes chunks :
  (forall d t, document_trace d t -> count_events p t = n) ->
  Forall2 document_trace recipes chunks ->
  count_events p (concat chunks) = n * length recipes.
Proof.
  intros Hn. induction 1 as [|d t ds ts Ht _ IH]; simpl.
  - unfold count_events. simpl. lia.
  - rewrite count_events_app, IH, (Hn _ _ Ht). lia.
Qed.

Lemma count_events_chunks_le p n recipes chunks :
  (forall d t, document_trace d t -> count_events p t <= n) ->
  Forall2 document_trace recipes chunks ->
  count_events p (concat chunks) <= n * length recipes.
Proof.
  intros Hn. induction 1 as [|d t ds ts Ht _ IH]; simpl.
  - unfold count_events. simpl. lia.
  - rewrite count_events_app. pose proof (Hn _ _ Ht). lia.
Qed.

Lemma document_counts d t :
  document_trace d t ->
  count_events is_consoleLog t = 1 /\
  count_events is_listIndexes t = 1 /\
  count_events is_embeddingsCreate t = 1 /\
  count_events is_upsert t = 1 /\
  count_events is_query t = 0 /\
  count_events is_consoleTable t = 0 /\
  count_events is_createIndex t <= 1.
Proof.
  intros (te & values & [-> | ->] & ->); repeat split; vm_compute; lia.
Qed.

Lemma search_counts t :
  search_trace t ->
  count_events is_consoleLog t = 0 /\
  count_events is_listIndexes t = 1 /\
  count_events is_embeddingsCreate t = 1 /\
  count_events is_upsert t = 0 /\
  count_events is_query t = 1 /\
  count_events is_consoleTable t = 1 /\
  count_events is_createIndex t <= 1.
Proof.
  intros (te & values & rows & [-> | ->] & ->); repeat split; vm_compute; lia.
Qed.

(** X11: a run that completes over n recipes has printed n progress notices
    and one table, and has made n + 1 listings, n + 1 embedding calls (one
    per document and one for the query, none batched), n upserts, one query
    and at most n + 1 index creations. *)
Theorem completed_run_call_counts env recipes (w : W) s' :
  main env recipes (init w) = (Ok tt, s') ->
  count_events is_consoleLog (trace s') = length recipes /\
  count_events is_listIndexes (trace s') = length recipes + 1 /\
  count_events is_embeddingsCreate (trace s') = length recipes + 1 /\
  count_events is_upsert (trace s') = length recipes /\
  count_events is_query (trace s') = 1 /\
  count_events is_consoleTable (trace s') = 1 /\
  count_events is_createIndex (trace s') <= length recipes + 1.
Proof.
  unfold main. destruct (loadConfig env) as [[pk ok]|e]; [|discriminate].
  intros E. unfold script in E.
  apply bind_inv_ok in E as ([] & s1 & E1 & E2).
  apply loop_ok in E1 as (chunks & Hc & T1).
  apply search_ok in E2 as (tail & Ht & T2).
  rewrite T2, T1. simpl. rewrite !count_events_app.
  destruct (search_counts _ Ht) as (S1 & S2 & S3 & S4 & S5 & S6 & S7).
  rewrite S1, S2, S3, S4, S5, S6.
  rewrite (count_events_chunks is_consoleLog 1 recipes chunks),
          (count_events_chunks is_listIndexes 1 recipes chunks),
          (count_events_chunks is_embeddingsCreate 1 recipes chunks),
          (count_events_chunks is_upsert 1 recipes chunks),
          (count_events_chunks is_query 0 recipes chunks),
          (count_events_chunks is_consoleTable 0 recipes chunks);
    try exact Hc; try (intros d t Hd; apply (document_counts d t Hd)).
  pose proof (count_events_chunks_le is_createIndex 1 recipes chunks
                (fun d t Hd => proj2 (proj2 (proj2 (proj2 (proj2 (proj2
                   (document_counts d t Hd))))))) Hc).
  repeat split; lia.
Qed.

(** *** The index stays listed *)

Lemma preserves_ret {A : Type} (J : State W -> Prop) (a : A) : preserves J (ret a).
Proof. intros s Hs. exact Hs. Qed.

Lemma preserves_throw {A : Type} (J : State W -> Prop) e :
  preserves (A:=A) J (throw e).
Proof. intros s Hs. exact Hs. Qed.

Lemma preserves_lift {A : Type} (J : State W -> Prop) (o : Outcome A) :
  preserves J (lift o).
Proof. intros s Hs. exact Hs. Qed.

Lemma preserves_bind {A B : Type} (J : State W -> Prop) (m : M W A) (k : A -> M W B) :
  preserves J m -> (forall a, preserves J (k a)) -> preserves J (bind m k).
Proof.
  intros Hm Hk s Hs. unfold bind. specialize (Hm s Hs).
  destruct (m s) as [[a|e] s1]; simpl in *.
  - now apply Hk.
  - exact Hm.
Qed.

Lemma preserves_for_of {A : Type} (J : State W -> Prop) (xs : list A)
    (body : A -> M W unit) :
  (forall x, preserves J (body x)) -> preserves J (for_of xs body).
Proof.
  intros Hb. induction xs as [|x xs IH]; simpl.
  - apply preserves_ret.
  - apply preserves_bind; [apply Hb|intros _; exact IH].
Qed.

Lemma settled_emit Inv e :
  is_createIndex e = false -> preserves (W:=W) (settled Inv) (emit e).
Proof.
  intros He s [Hi Ht]. split; [exact Hi|]. simpl.
  apply Forall_app. split; [exact Ht|]. now constructor.
Qed.

Lemma settled_call {A : Type} Inv e (f : W -> Outcome A * W) :
  is_createIndex e = false ->
  (forall w o w', Inv w -> f w = (o, w') -> Inv w') ->
  preserves (settled Inv) (call e f).
Proof.
  intros He Hf. apply preserves_bind; [now apply settled_emit|].
  intros _ s [Hi Ht]. unfold await.
  destruct (f (world s)) as [o w'] eqn:E. split; [|exact Ht].
  simpl. now apply (Hf (world s) o w').
Qed.

Lemma settled_getIndex Inv this :
  keeps_listing Inv -> preserves (settled Inv) (getIndex this).
Proof.
  intros (Hlisted & Hlist & _) s [Hi Ht].
  unfold getIndex, indexExists, call, bind, emit, await, ret. simpl.
  destruct (listIndexes (pinecone_apiKey (pinecone this)) (world s))
    as [[l|e] w1] eqn:L.
  - pose proof (Hlisted _ _ _ _ Hi L) as Hl. unfold listed in Hl.
    pose proof (Hlist _ _ _ _ Hi L) as Hi1.
    destruct (indexes l) as [idx|]; [|discriminate]. simpl. rewrite Hl.
    split; [exact Hi1|]. simpl. apply Forall_app. split; [exact Ht|].
    now constructor.
  - split; [exact (Hlist _ _ _ _ Hi L)|]. simpl.
    apply Forall_app. split; [exact Ht|]. now constructor.
Qed.

Lemma settled_generateEmbedding Inv this text :
  keeps_listing Inv -> preserves (settled Inv) (generateEmbedding this text).
Proof.
  intros (_ & _ & Hembed & _). unfold generateEmbedding.
  apply preserves_bind.
  - apply settled_call; [reflexivity|]. intros w o w'. apply Hembed.
  - intros r. destruct (data r); [apply preserves_throw|apply preserves_ret].
Qed.

Lemma settled_script Inv database recipes :
  keeps_listing Inv -> preserves (settled Inv) (script database recipes).
Proof.
  intros K. pose proof K as (_ & _ & _ & Hupsert & Hquery).
  unfold script. apply preserves_bind.
  - apply preserves_for_of. intros d. unfold indexRecipe, indexDocument, index_upsert.
    apply preserves_bind; [now apply settled_emit|intros _].
    apply preserves_bind; [now apply settled_getIndex|intros index].
    apply preserves_bind; [now apply settled_generateEmbedding|intros values].
    apply settled_call; [reflexivity|]. intros w o w'. apply Hupsert.
  - intros _. apply preserves_bind.
    + unfold semanticSearch, semanticSearch_query, index_query.
      apply preserves_bind; [|intros; apply preserves_lift].
      apply preserves_bind; [now apply settled_generateEmbedding|intros values].
      apply preserves_bind; [now apply settled_getIndex|intros index].
      apply settled_call; [reflexivity|]. intros w o w'. apply Hquery.
    + intros rows. now apply settled_emit.
Qed.

(** X14: a run that starts with the index listed, against services that
    keep it listed, never calls [createIndex], however the run ends: every
    [getIndex] of the loop and of the search finds the index and returns. *)
Theorem listed_index_is_never_recreated (Inv : W -> Prop) env recipes (w : W) :
  keeps_listing Inv -> Inv w ->
  count_events is_createIndex (trace (main env recipes (init w)).2) = 0.
Proof.
  intros K Hw. apply count_events_none.
  assert (S : settled Inv (main env recipes (init w)).2).
  { unfold main. destruct (loadConfig env) as [[pk ok]|e].
    - apply settled_script; [exact K|]. split; [exact Hw|constructor].
    - split; [exact Hw|constructor]. }
  apply S.
Qed.

End Counts.

(** * The further properties on examples *)

Lemma sim_keeps_listing :
  keeps_listing (W:=SimWorld) (fun w => sim_has_index (js "recipes") w = true).
Proof.
  repeat split.
  - intros key w l w' Hi E. simpl in E. unfold sim_spend in E.
    destruct (sim_quota w) as [[|n]|]; try discriminate;
      injection E as <- <-; exact Hi.
  - intros key w o w' Hi E. simpl in E. unfold sim_spend in E.
    destruct (sim_quota w) as [[|n]|]; injection E as <- <-; exact Hi.
  - intros key params w o w' Hi E. simpl in E. unfold sim_spend in E.
    destruct (sim_quota w) as [[|n]|]; injection E as <- <-; exact Hi.
  - intros key n records w o w' Hi E. simpl in E. unfold sim_spend, sim_upsert in E.
    destruct (sim_quota w) as [[|q]|];
      try (injection E as <- <-; exact Hi);
      match type of E with
      | context [sim_has_index ?a ?b] => destruct (sim_has_index a b)
      end; injection E as <- <-; exact Hi.
  - intros key n options w o w' Hi E. simpl in E. unfold sim_spend in E.
    destruct (sim_quota w) as [[|q]|];
      try (injection E as <- <-; exact Hi);
      match type of E with
      | context [sim_has_index ?a ?b] => destruct (sim_has_index a b)
      end; injection E as <- <-; exact Hi.
Qed.

Lemma getIndex_creates_exactly_when_not_listed_witness :
  count_events is_createIndex
    (trace (getIndex sample_database (init unlisted_service)).2) =
  count_events is_createIndex (trace (init unlisted_service)) +
    (if listed {| indexes := None |} then 0 else 1).
Proof.
  apply (getIndex_creates_exactly_when_not_listed sample_database
           (init unlisted_service) {| indexes := None |} unlisted_service
           (getIndex sample_database (init unlisted_service)).1).
  - reflexivity.
  - vm_compute. reflexivity.
Defined.

Lemma getIndex_throws_only_service_errors_witness :
  getIndex sample_database (init conflicting_service) =
    (Throw (RemoteFailure (js "index already exists")),
     {| world := conflicting_service;
        trace := [EListIndexes; ECreateIndex createIndexOptions] |}) /\
  (listIndexes (js "pc-key") conflicting_service =
     (Throw (RemoteFailure (js "index already exists")), conflicting_service) \/
   exists l w1,
     listIndexes (js "pc-key") conflicting_service = (Ok l, w1) /\
     listed l = false /\
     createIndex (js "pc-key") createIndexOptions w1 =
       (Throw (RemoteFailure (js "index already exists")), conflicting_service)).
Proof.
  split; [vm_compute; reflexivity|].
  apply (getIndex_throws_only_service_errors sample_database
           (init conflicting_service) (RemoteFailure (js "index already exists"))
           {| world := conflicting_service;
              trace := [EListIndexes; ECreateIndex createIndexOptions] |}).
  vm_compute. reflexivity.
Defined.

Lemma generateEmbedding_failure_witness :
  generateEmbedding sample_database (js "soup") (init unlisted_service) =
    (Throw TypeError,
     {| world := unlisted_service;
        trace := [EEmbeddingsCreate (embeddingParams (js "soup"))] |}) /\
  (embeddings_create (js "sk-key") (embeddingParams (js "soup")) unlisted_service
     = (Throw TypeError, unlisted_service) \/
   (TypeError = TypeError /\
    exists response,
      embeddings_create (js "sk-key") (embeddingParams (js "soup")) unlisted_service
        = (Ok response, unlisted_service) /\
      data response = [])).
Proof.
  split; [vm_compute; reflexivity|].
  apply (generateEmbedding_failure sample_database (js "soup")
           (init unlisted_service) TypeError
           {| world := unlisted_service;
              trace := [EEmbeddingsCreate (embeddingParams (js "soup"))] |}).
  vm_compute. reflexivity.
Defined.

Lemma indexDocument_upserts_service_vector_witness :
  exists s1 response w2 first,
    getIndex sample_database (init fresh_world) =
      (Ok {| index_name := js "recipes" |}, s1) /\
    embeddings_create (js "sk-key") (embeddingParams (content vanilla_ice_cream))
      (world s1) = (Ok response, w2) /\
    head (data response) = Some first /\
    upsert (js "pc-key") (js "recipes")
      [documentRecord vanilla_ice_cream (embedding first)] w2 =
      (Ok tt, world (indexDocument sample_database vanilla_ice_cream (init fresh_world)).2) /\
    trace (indexDocument sample_database vanilla_ice_cream (init fresh_world)).2 =
      trace s1 ++ [EEmbeddingsCreate (embeddingParams (content vanilla_ice_cream));
                   EUpsert (js "recipes")
                     [documentRecord vanilla_ice_cream (embedding first)]].
Proof.
  apply (indexDocument_upserts_service_vector sample_database vanilla_ice_cream
           (init fresh_world)).
  vm_compute. reflexivity.
Defined.

Lemma indexDocument_upserts_last_witness :
  (indexDocument sample_database vanilla_ice_cream (init stingy_world)).1 =
    Throw (RemoteFailure (js "quota exceeded")) /\
  upserted (trace (indexDocument sample_database vanilla_ice_cream
                     (init stingy_world)).2) = [] /\
  (upserted (trace (indexDocument sample_database vanilla_ice_cream
                      (init stingy_world)).2) = upserted (trace (init stingy_world)) \/
   exists index s1 values s2,
     getIndex sample_database (init stingy_world) = (Ok index, s1) /\
     generateEmbedding sample_database (content vanilla_ice_cream) s1 = (Ok values, s2) /\
     upserted (trace (indexDocument sample_database vanilla_ice_cream
                        (init stingy_world)).2) =
       upserted (trace (init stingy_world)) ++ [id vanilla_ice_cream]).
Proof.
  split; [vm_compute; reflexivity|]. split; [vm_compute; reflexivity|].
  apply (indexDocument_upserts_last sample_database vanilla_ice_cream
           (init stingy_world)
           (indexDocument sample_database vanilla_ice_cream (init stingy_world)).1).
  vm_compute. reflexivity.
Defined.

Lemma semanticSearch_query_options_witness :
  semanticSearch_query sample_database (js "soup") (Some 1%Z) (init search_world) =
    (Ok {| matches := take 1 sample_matches |},
     (semanticSearch_query sample_database (js "soup") (Some 1%Z) (init search_world)).2) /\
  exists values s1,
    generateEmbedding sample_database (js "soup") (init search_world) = (Ok values, s1) /\
    last (trace (semanticSearch_query sample_database (js "soup") (Some 1%Z)
                   (init search_world)).2) =
      Some (EQuery (js "recipes")
              {| vector := values; topK := default 3%Z (Some 1%Z);
                 includeMetadata := true |}).
Proof.
  split; [vm_compute; reflexivity|].
  apply (semanticSearch_query_options sample_database (js "soup") (Some 1%Z)
           (init search_world) {| matches := take 1 sample_matches |}).
  vm_compute. reflexivity.
Defined.

Lemma semanticSearch_throws_on_metadata_without_content_witness :
  semanticSearch sample_database (js "soup") None (init contentless_service) =
    (Throw TypeError,
     (semanticSearch_query sample_database (js "soup") None
        (init contentless_service)).2).
Proof.
  apply (semanticSearch_throws_on_metadata_without_content sample_database
           (js "soup") None (init contentless_service)
           {| matches := untitled_matches |}).
  - vm_compute. reflexivity.
  - apply Exists_cons_tl, Exists_cons_hd.
    exists (<[js "title" := MVString (js "Tomato Soup")]> ∅).
    split; [reflexivity|]. vm_compute. reflexivity.
Defined.

Lemma semanticSearch_one_row_per_match_witness :
  length sample_results = length (matches sample_response) /\
  Forall2 (fun m r =>
             sr_title r = match match_metadata m with
                          | None => None
                          | Some metadata => metadata !! js "title"
                          end)
          (matches sample_response) sample_results.
Proof.
  apply (semanticSearch_one_row_per_match sample_database
           (js "recipes with ice cream") None (init search_world)
           sample_response sample_results sample_search_state).
  - vm_compute. reflexivity.
  - vm_compute. reflexivity.
Defined.

Lemma semanticSearch_embedding_failure_skips_database_witness :
  semanticSearch sample_database (js "soup") None (init closed_world) =
    (Throw (RemoteFailure (js "quota exceeded")),
     {| world := closed_world;
        trace := [EEmbeddingsCreate (embeddingParams (js "soup"))] |}) /\
  trace {| world := closed_world;
           trace := [EEmbeddingsCreate (embeddingParams (js "soup"))] |} =
    trace (init closed_world) ++ [EEmbeddingsCreate (embeddingParams (js "soup"))].
Proof.
  apply (semanticSearch_embedding_failure_skips_database sample_database
           (js "soup") None (init closed_world)).
  vm_compute. reflexivity.
Defined.

Lemma completed_run_call_counts_witness :
  count_events is_consoleLog (trace sample_run.2) = length sample_recipes /\
  count_events is_listIndexes (trace sample_run.2) = length sample_recipes + 1 /\
  count_events is_embeddingsCreate (trace sample_run.2) = length sample_recipes + 1 /\
  count_events is_upsert (trace sample_run.2) = length sample_recipes /\
  count_events is_query (trace sample_run.2) = 1 /\
  count_events is_consoleTable (trace sample_run.2) = 1 /\
  count_events is_createIndex (trace sample_run.2) <= length sample_recipes + 1.
Proof.
  apply (completed_run_call_counts sample_env sample_recipes fresh_world sample_run.2).
  vm_compute. reflexivity.
Defined.

Lemma failed_run_prints_no_table_witness :
  count_events is_consoleTable
    (trace (main sample_env sample_recipes (init rationed_world)).2) = 0.
Proof.
  apply (failed_run_prints_no_table sample_env sample_recipes rationed_world
           (RemoteFailure (js "quota exceeded"))).
  vm_compute. reflexivity.
Defined.

Lemma listed_index_is_never_recreated_witness :
  count_events is_createIndex
    (trace (main sample_env sample_recipes (init search_world)).2) = 0.
Proof.
  apply (listed_index_is_never_recreated
           (fun w => sim_has_index (js "recipes") w = true)
           sample_env sample_recipes search_world).
  - exact sim_keeps_listing.
  - reflexivity.
Defined.

Lemma truncation_cuts_surrogate_pair_witness :
  (take 50 astral_content ++ ellipsis) !! 49 = Some 55356%N /\
  drop 50 (take 50 astral_content ++ ellipsis) = ellipsis /\
  Forall (fun c => is_low_surrogate c = false)
         (drop 50 (take 50 astral_content ++ ellipsis)).
Proof.
  apply (truncation_cuts_surrogate_pair astral_match
           {| sr_id := js "9"; sr_title := None;
              sr_content := take 50 astral_content ++ ellipsis;
              sr_score := None |}
           astral_content 55356%N 57190%N).
  - vm_compute. reflexivity.
  - vm_compute. reflexivity.
  - reflexivity.
  - reflexivity.
  - reflexivity.
  - reflexivity.
Defined.


(** * The keys the services are shown *)

Section Keys.
Context {W : Type} {R : Remote W} {F : NumberFormat}.

Lemma keys_call {A : Type} env e
    (f : W * list (Service * jsstring) -> Outcome A * (W * list (Service * jsstring))) :
  (forall a o a', Forall (key_of_env env) a.2 -> f a = (o, a') ->
                  Forall (key_of_env env) a'.2) ->
  preserves (keys_of_env env) (call e f).
Proof.
  intros Hf. apply preserves_bind.
  - intros s Hs. exact Hs.
  - intros _ s Hs. unfold await, keys_of_env in *.
    destruct (f (world s)) as [o a'] eqn:E. simpl. now apply (Hf (world s) o a').
Qed.

Lemma keys_snoc env (log : list (Service * jsstring)) service key :
  key <> [] -> env !! env_name service = Some key ->
  Forall (key_of_env env) log ->
  Forall (key_of_env env) (log ++ [(service, key)]).
Proof.
  intros Hk He Hl. apply Forall_app. split; [exact Hl|].
  constructor; [now split|constructor].
Qed.

Lemma keys_getIndex env this :
  pinecone_apiKey (pinecone this) <> [] ->
  env !! js "PINECONE_API_KEY" = Some (pinecone_apiKey (pinecone this)) ->
  preserves (keys_of_env env) (@getIndex _ (audited R) this).
Proof.
  intros Hk He. unfold getIndex, indexExists.
  apply preserves_bind.
  - apply preserves_bind.
    + apply keys_call. intros a o a' Ha E. simpl in E.
      destruct (listIndexes _ a.1) as [o1 w1]. injection E as _ <-.
      now apply (keys_snoc env _ PineconeService).
    + intros r. destruct (indexes r); apply preserves_ret.
  - intros [|]; [apply preserves_ret|].
    apply preserves_bind; [|intros _; apply preserves_ret].
    apply keys_call. intros a o a' Ha E. simpl in E.
    destruct (createIndex _ _ a.1) as [o1 w1]. injection E as _ <-.
    now apply (keys_snoc env _ PineconeService).
Qed.

Lemma keys_generateEmbedding env this text :
  openai_apiKey (openai this) <> [] ->
  env !! js "OPEN_AI_API_KEY" = Some (openai_apiKey (openai this)) ->
  preserves (keys_of_env env) (@generateEmbedding _ (audited R) this text).
Proof.
  intros Hk He. unfold generateEmbedding.
  apply preserves_bind.
  - apply keys_call. intros a o a' Ha E. simpl in E.
    destruct (embeddings_create _ _ a.1) as [o1 w1]. injection E as _ <-.
    now apply (keys_snoc env _ OpenAIService).
  - intros r. destruct (data r); [apply preserves_throw|apply preserves_ret].
Qed.

Lemma keys_script env database recipes :
  pinecone_apiKey (pinecone database) <> [] ->
  env !! js "PINECONE_API_KEY" = Some (pinecone_apiKey (pinecone database)) ->
  openai_apiKey (openai database) <> [] ->
  env !! js "OPEN_AI_API_KEY" = Some (openai_apiKey (openai database)) ->
  preserves (keys_of_env env) (@script _ (audited R) F database recipes).
Proof.
  intros Hp Ep Ho Eo. unfold script. apply preserves_bind.
  - apply preserves_for_of. intros d. unfold indexRecipe, indexDocument, index_upsert.
    apply preserves_bind; [intros s Hs; exact Hs|intros _].
    apply preserves_bind; [now apply keys_getIndex|intros index].
    apply preserves_bind; [now apply keys_generateEmbedding|intros values].
    apply keys_call. intros a o a' Ha E. simpl in E.
    destruct (upsert _ _ _ a.1) as [o1 w1]. injection E as _ <-.
    now apply (keys_snoc env _ PineconeService).
  - intros _. apply preserves_bind.
    + unfold semanticSearch, semanticSearch_query, index_query.
      apply preserves_bind; [|intros; apply preserves_lift].
      apply preserves_bind; [now apply keys_generateEmbedding|intros values].
      apply preserves_bind; [now apply keys_getIndex|intros index].
      apply keys_call. intros a o a' Ha E. simpl in E.
      destruct (query _ _ _ a.1) as [o1 w1]. injection E as _ <-.
      now apply (keys_snoc env _ PineconeService).
    + intros rows s Hs. exact Hs.
Qed.

(** X1: every call of a run presents the key of its service as the
    environment holds it: the listings, creations, upserts and queries are
    made with the value of [PINECONE_API_KEY] and the embedding calls with
    the value of [OPEN_AI_API_KEY], and no call is made with an empty key,
    whatever the services answer and however the run ends. *)
Theorem every_call_presents_the_env_key env recipes (w : W) :
  Forall (key_of_env env)
    (world (@main _ (audited R) F env recipes (init (w, []))).2).2.
Proof.
  assert (K : preserves (keys_of_env env) (@main _ (audited R) F env recipes)).
  { unfold main. destruct (loadConfig env) as [[pk ok]|e] eqn:C.
    - apply loadConfig_keys_come_from_env in C as (Ep & Hp & Eo & Ho).
      now apply keys_script.
    - apply preserves_throw. }
  apply (K (init (w, []))). constructor.
Qed.

End Keys.

(** On the first test double, the thirteen calls of the sample run each
    present the key of their service. *)
Lemma sample_run_key_uses :
  (world (@main _ (audited sim_remote) sim_format sample_env sample_recipes
            (init (fresh_world, []))).2).2 =
  [(PineconeService, js "pc-key"); (PineconeService, js "pc-key");
   (OpenAIService, js "sk-key"); (PineconeService, js "pc-key");
   (PineconeService, js "pc-key"); (OpenAIService, js "sk-key");
   (PineconeService, js "pc-key"); (PineconeService, js "pc-key");
   (OpenAIService, js "sk-key"); (PineconeService, js "pc-key");
   (OpenAIService, js "sk-key"); (PineconeService, js "pc-key");
   (PineconeService, js "pc-key")].
Proof. vm_compute. reflexivity. Qed.
